(** * arcade.draw_commands: geometry, colours, textures

    A shallow embedding of [arcade/draw_commands.py].

    Numbers.  The drawing functions take Python numbers (ints or floats).
    Coordinates, sizes and the tilt angle are embedded as real numbers [R]:
    on them float arithmetic is idealised as exact, and Python ints are the
    integral reals.  The start and end angle of an arc are IEEE 754 binary64
    numbers ([float]): [int(angle / 360 * num_segments)] truncates, so a
    rounding error of one unit in the last place changes the number of
    vertices, and the segment bounds are computed as the code computes
    them.  Segment counts and loop indices are Python ints, embedded as
    [Z].  Pixel coordinates, crop rectangles and the scale factor of the
    texture functions are embedded as [Z] as well, so that [str.format]
    on them is the decimal rendering of an integer.

    [rotate_point] is embedded twice.  Over the reals it serves the
    tessellators, whose vertices it moves by at most 1/200.  In the module
    [Double] it is embedded over binary64, with [math.cos] and [math.sin]
    (functions of the C library, which IEEE 754 does not fix) as
    parameters: there its output is what the code returns, digit for
    digit.

    Effects.  [vao.render] is the only observable effect of the drawing
    functions: the GL context is the list of submitted draw calls.  The
    texture functions thread the GL texture-name counter, the heap of
    [Texture] objects and the dictionary [load_texture.texture_cache]. *)

From Stdlib Require Import Floats ZArith List String Reals Machin Lra Lia.
From stdpp Require Import base option list gmap strings pretty.

Set Warnings "-inexact-float".

Import ListNotations.

(** ** Python built-ins used by the module *)

Module Py.

Local Open Scope R_scope.

(** [x // y] on numbers: the floor of the quotient. *)
Definition floordiv (x y : R) : R := IZR (Int_part (x / y)).

(** [int(x)]: truncation towards zero. *)
Definition int (x : R) : Z :=
  if Rle_dec 0 x then Int_part x else (- Int_part (- x))%Z.

(** [math.floor(x)], which the specification speaks of. *)
Definition floor (x : R) : Z := Int_part x.

(** Nearest integer, ties to the even neighbour. *)
Definition round_half_even (r : R) : Z :=
  let f := Int_part r in
  let d := r - IZR f in
  if Rlt_dec d (1 / 2) then f
  else if Rlt_dec (1 / 2) d then (f + 1)%Z
  else if Z.even f then f else (f + 1)%Z.

(** [round(x, ndigits)] for a non-negative [ndigits]. *)
Definition round (x : R) (ndigits : nat) : R :=
  IZR (round_half_even (x * 10 ^ ndigits)) / 10 ^ ndigits.

(** [math.radians(d)]. *)
Definition radians (d : R) : R := d * PI / 180.

(** [range(a, b)]. *)
Definition range (a b : Z) : list Z :=
  map (fun i => (a + Z.of_nat i)%Z) (seq 0 (Z.to_nat (b - a))).

(** ["{}".format(b)] for a bool. *)
Definition str_bool (b : bool) : string :=
  if b then "True"%string else "False"%string.

(** ["{}".format(n)] for an int. *)
Definition str_int (n : Z) : string := pretty n.

End Py.

(** ** Exceptions *)

Inductive exn : Type :=
| ValueError (msg : string)
| AttributeError (msg : string)
| OverflowError (msg : string)
| ZeroDivisionError
| FileNotFoundError.

(** ** Python floats: IEEE 754 binary64 *)

Module Double.

(** [float(n)] for an int, as in [x * n] for a float [x]: the nearest
    double, ties to even. *)
Definition of_int (n : Z) : exn + float :=
  match binary_normalize prec emax n 0 false with
  | S754_infinity _ =>
    inl (OverflowError "int too large to convert to float")
  | sf => inr (SF2Prim sf)
  end.

(** [int(x)] for a float: truncation towards zero. *)
Definition to_int (x : float) : exn + Z :=
  match Prim2SF x with
  | S754_zero _ => inr 0%Z
  | S754_infinity _ =>
    inl (OverflowError "cannot convert float infinity to integer")
  | S754_nan => inl (ValueError "cannot convert float NaN to integer")
  | S754_finite s m e => inr (cond_Zopp s (Z.shiftl (Z.pos m) e))
  end.

(** The real number a finite double stands for. *)
Definition to_R (x : float) : R :=
  match Prim2SF x with
  | S754_finite s m e =>
    let v := if (0 <=? e)%Z then IZR (Z.pos m * 2 ^ e)
             else (IZR (Z.pos m) / IZR (2 ^ (- e)))%R in
    if s then (- v)%R else v
  | _ => 0%R
  end.


(** Finite. *)
Definition finite (x : float) : bool :=
  match Prim2SF x with
  | S754_finite _ _ _ | S754_zero _ => true
  | _ => false
  end.

(** The integer nearest to [n / d] for [d > 0], ties to the even one. *)
Definition div_half_even (n d : Z) : Z :=
  let q := (n / d)%Z in
  let r := (n mod d)%Z in
  match (2 * r ?= d)%Z with
  | Lt => q
  | Gt => (q + 1)%Z
  | Eq => if Z.even q then q else (q + 1)%Z
  end.

(** [round(x, ndigits)] for a float and a non-negative [ndigits]: the
    multiple [k / 10 ** ndigits] nearest to the exact value of [x] (ties to
    the even [k]), then the double nearest to that quotient. *)
Definition round (x : float) (ndigits : nat) : float :=
  match Prim2SF x with
  | S754_finite s m e =>
    let p := (10 ^ Z.of_nat ndigits)%Z in
    let k := match e with
             | Z.neg j => div_half_even (Z.pos m * p) (2 ^ Z.pos j)
             | _ => (Z.pos m * 2 ^ e * p)%Z
             end in
    match k with
    | Z.pos kp =>
      SF2Prim (SFdiv prec emax (S754_finite s kp 0)
                 (S754_finite false (Z.to_pos p) 0))
    | _ => SF2Prim (S754_zero s)
    end
  | _ => x
  end.

(** [math.radians(x)]: [x * (pi / 180)], with the double nearest to pi. *)
Definition radians (x : float) : float :=
  (x * (3.141592653589793 / 180))%float.

(** [rotate_point] on floats; [cos] and [sin] stand for [math.cos] and
    [math.sin]. *)
Definition rotate_point (cos sin : float -> float) (x y cx cy angle : float)
  : float * float :=
  let temp_x := (x - cx)%float in
  let temp_y := (y - cy)%float in
  let rotated_x :=
    (temp_x * cos (radians angle) - temp_y * sin (radians angle))%float in
  let rotated_y :=
    (temp_x * sin (radians angle) + temp_y * cos (radians angle))%float in
  let rounding_precision := 2%nat in
  (round (rotated_x + cx)%float rounding_precision,
   round (rotated_y + cy)%float rounding_precision).



End Double.

(** ** Effects: a state and exception monad

    [Eff St A] is a Python computation over the mutable state [St] that
    returns an [A] or raises; the state reached is kept in both cases. *)

Definition Eff (St A : Type) : Type := St -> (exn + A) * St.

Definition eff_ret {St A} (a : A) : Eff St A := fun s => (inr a, s).

Definition eff_raise {St A} (e : exn) : Eff St A := fun s => (inl e, s).

Definition eff_bind {St A B} (m : Eff St A) (k : A -> Eff St B) : Eff St B :=
  fun s =>
    match m s with
    | (inl e, s') => (inl e, s')
    | (inr a, s') => k a s'
    end.

(** A pure computation that may raise, run inside [Eff]. *)
Definition eff_lift {St A} (r : exn + A) : Eff St A := fun s => (r, s).

Definition eff_get {St} : Eff St St := fun s => (inr s, s).

Definition eff_modify {St} (f : St -> St) : Eff St unit :=
  fun s => (inr tt, f s).

Declare Scope eff_scope.
Delimit Scope eff_scope with eff.
Notation "'let*' x ':=' m 'in' k" := (eff_bind m (fun x => k))
  (at level 10, x name, m at level 100, k at level 200) : eff_scope.

(** ** Colours *)

(** A colour is a Python sequence of channel values. *)
Definition Color : Type := list Z.

Definition get_four_byte_color (color : Color) : exn + Color :=
  if (length color =? 4)%nat then inr color
  else if (length color =? 3)%nat then
    inr [nth 0 color 0%Z; nth 1 color 0%Z; nth 2 color 0%Z; 255%Z]
  else inl (ValueError "This isn't a 3 or 4 byte color").

(** ** Points and rotation *)

Definition Point : Type := (R * R)%type.

Definition rotate_point (x y cx cy angle : R) : Point :=
  let temp_x := (x - cx)%R in
  let temp_y := (y - cy)%R in
  let rotated_x :=
    (temp_x * cos (Py.radians angle) - temp_y * sin (Py.radians angle))%R in
  let rotated_y :=
    (temp_x * sin (Py.radians angle) + temp_y * cos (Py.radians angle))%R in
  let rounding_precision := 2%nat in
  (Py.round (rotated_x + cx) rounding_precision,
   Py.round (rotated_y + cy) rounding_precision).

(** A point whose coordinates have at most two decimals. *)
Definition centesimal (p : Point) : Prop :=
  exists kx ky : Z, p = (IZR kx / 100, IZR ky / 100)%R.

(** Both coordinates through [round(_, 2)]. *)
Definition round2_point (p : Point) : Point :=
  (Py.round (fst p) 2, Py.round (snd p) 2).

(** ** The GL context and the drawing monad *)

Inductive gl_mode : Type :=
| GL_POINTS | GL_LINES | GL_LINE_LOOP | GL_LINE_STRIP
| GL_TRIANGLE_STRIP | GL_TRIANGLE_FAN | GL_POLYGON.

(** One [vao.render(mode=mode)]: the points written to the vertex buffer
    (before their conversion to 32-bit floats), the colour every vertex
    carries, and the line width the context was set to. *)
Record draw_call : Type := DrawCall {
  dc_mode : gl_mode;
  dc_vertices : list Point;
  dc_color : Color;
  dc_line_width : R
}.

(** The GL context: the draw calls issued so far, oldest first. *)
Definition gl_context : Type := list draw_call.

(** A drawing function reads and extends the context and may raise. *)
Definition Draw (A : Type) : Type := Eff gl_context A.

Definition render (c : draw_call) : Draw unit :=
  eff_modify (fun g => g ++ [c]).

(** A [for] loop over [l] whose body updates an accumulator and may raise. *)
Fixpoint for_each {A S : Type} (body : S -> A -> exn + S) (l : list A) (s : S)
  : exn + S :=
  match l with
  | [] => inr s
  | a :: l' =>
    match body s a with
    | inl e => inl e
    | inr s' => for_each body l' s'
    end
  end.

(** [x / n] for an int [n]: raises on a zero divisor. *)
Definition truediv (x : R) (n : Z) : exn + R :=
  if (n =? 0)%Z then inl ZeroDivisionError else inr (x / IZR n)%R.

(** ** Draw submission *)

Definition _generic_draw_line_strip (point_list : list Point) (color : Color)
    (line_width : R) (mode : gl_mode) : Draw unit :=
  (let* color4 :=
     eff_lift (get_four_byte_color color) in
   render (DrawCall mode point_list color4 line_width))%eff.

(** ** Loops shared by the tessellators *)

(** [for point in unrotated_point_list:
       uncentered_point_list.append(rotate_point(point[0], point[1], 0, 0, tilt_angle))] *)
Definition rotate_all (tilt_angle : R) (unrotated_point_list : list Point)
  : list Point :=
  fold_left
    (fun acc point => acc ++ [rotate_point (fst point) (snd point) 0 0 tilt_angle])
    unrotated_point_list [].

(** [for point in uncentered_point_list:
       point_list.append((point[0] + center_x, point[1] + center_y))] *)
Definition center_all (center_x center_y : R) (uncentered_point_list : list Point)
  : list Point :=
  fold_left
    (fun acc point => acc ++ [(fst point + center_x, snd point + center_y)%R])
    uncentered_point_list [].

(** The tilt branch of the arc and ellipse functions. *)
Definition tilt_branch (tilt_angle : R) (unrotated_point_list : list Point)
  : list Point :=
  if Req_dec_T tilt_angle 0 then unrotated_point_list
  else rotate_all tilt_angle unrotated_point_list.

(** ** Arcs *)

(** The body of the segment loop of [draw_arc_filled]; the loops of
    [draw_ellipse_filled] and [draw_ellipse_outline] have the same body. *)
Definition arc_filled_step (width height : R) (num_segments : Z)
    (acc : list Point) (segment : Z) : exn + list Point :=
  match truediv (2 * 3.1415926 * IZR segment)%R num_segments with
  | inl e => inl e
  | inr theta =>
    let x := (width * cos theta)%R in
    let y := (height * sin theta)%R in
    inr (acc ++ [(x, y)])
  end.

(** [int(angle / 360 * num_segments)], in double precision. *)
Definition arc_segment (angle : float) (num_segments : Z) : exn + Z :=
  match Double.of_int num_segments with
  | inl e => inl e
  | inr n => Double.to_int (angle / 360 * n)%float
  end.

Definition arc_filled_unrotated (width height : R)
    (start_angle end_angle : float) (num_segments : Z) : exn + list Point :=
  let unrotated_point_list := [(0, 0)%R] in
  match arc_segment start_angle num_segments with
  | inl e => inl e
  | inr start_segment =>
    match arc_segment end_angle num_segments with
    | inl e => inl e
    | inr end_segment =>
      for_each (arc_filled_step width height num_segments)
        (Py.range start_segment (end_segment + 1)) unrotated_point_list
    end
  end.

Definition draw_arc_filled (center_x center_y width height : R) (color : Color)
    (start_angle end_angle : float) (tilt_angle : R) (num_segments : Z)
  : Draw unit :=
  (let* unrotated_point_list :=
     eff_lift (arc_filled_unrotated width height start_angle end_angle
                  num_segments) in
   let uncentered_point_list := tilt_branch tilt_angle unrotated_point_list in
   let point_list := center_all center_x center_y uncentered_point_list in
   _generic_draw_line_strip point_list color 1 GL_TRIANGLE_FAN)%eff.

(** The body of the segment loop of [draw_arc_outline]. *)
Definition arc_outline_step (inside_width outside_width inside_height
    outside_height : R) (num_segments : Z)
    (acc : list Point) (segment : Z) : exn + list Point :=
  match truediv (2 * PI * IZR segment)%R num_segments with
  | inl e => inl e
  | inr theta =>
    let x1 := (inside_width * cos theta)%R in
    let y1 := (inside_height * sin theta)%R in
    let x2 := (outside_width * cos theta)%R in
    let y2 := (outside_height * sin theta)%R in
    inr ((acc ++ [(x1, y1)]) ++ [(x2, y2)])
  end.

Definition arc_outline_unrotated (width height : R)
    (start_angle end_angle : float) (border_width : R) (num_segments : Z)
  : exn + list Point :=
  match arc_segment start_angle num_segments with
  | inl e => inl e
  | inr start_segment =>
    match arc_segment end_angle num_segments with
    | inl e => inl e
    | inr end_segment =>
      let inside_width := (width - border_width / 2)%R in
      let outside_width := (width + border_width / 2)%R in
      let inside_height := (height - border_width / 2)%R in
      let outside_height := (height + border_width / 2)%R in
      for_each
        (arc_outline_step inside_width outside_width inside_height
           outside_height num_segments)
        (Py.range start_segment (end_segment + 1)) []
    end
  end.

Definition draw_arc_outline (center_x center_y width height : R) (color : Color)
    (start_angle end_angle : float) (border_width tilt_angle : R)
    (num_segments : Z) : Draw unit :=
  (let* unrotated_point_list :=
     eff_lift (arc_outline_unrotated width height start_angle end_angle
                  border_width num_segments) in
   let uncentered_point_list := tilt_branch tilt_angle unrotated_point_list in
   let point_list := center_all center_x center_y uncentered_point_list in
   _generic_draw_line_strip point_list color 1 GL_TRIANGLE_STRIP)%eff.

(** ** Ellipses *)

Definition ellipse_unrotated (width height : R) (num_segments : Z)
  : exn + list Point :=
  for_each (arc_filled_step width height num_segments)
    (Py.range 0 num_segments) [].

Definition draw_ellipse_filled (center_x center_y width height : R)
    (color : Color) (tilt_angle : R) (num_segments : Z) : Draw unit :=
  (let* unrotated_point_list :=
     eff_lift (ellipse_unrotated width height num_segments) in
   let uncentered_point_list := tilt_branch tilt_angle unrotated_point_list in
   let point_list := center_all center_x center_y uncentered_point_list in
   _generic_draw_line_strip point_list color 1 GL_TRIANGLE_FAN)%eff.

Definition draw_ellipse_outline (center_x center_y width height : R)
    (color : Color) (border_width tilt_angle : R) (num_segments : Z)
  : Draw unit :=
  (let* unrotated_point_list :=
     eff_lift (ellipse_unrotated width height num_segments) in
   let uncentered_point_list := tilt_branch tilt_angle unrotated_point_list in
   let point_list := center_all center_x center_y uncentered_point_list in
   _generic_draw_line_strip point_list color border_width GL_LINE_LOOP)%eff.

(** ** Rectangles *)

(** The four corners [p1, p2, p3, p4] before the tilt is applied. *)
Definition rectangle_corners (center_x center_y width height : R)
  : Point * Point * Point * Point :=
  let p1 := (Py.floordiv (- width) 2 + center_x,
             Py.floordiv (- height) 2 + center_y)%R in
  let p2 := (Py.floordiv width 2 + center_x,
             Py.floordiv (- height) 2 + center_y)%R in
  let p3 := (Py.floordiv width 2 + center_x,
             Py.floordiv height 2 + center_y)%R in
  let p4 := (Py.floordiv (- width) 2 + center_x,
             Py.floordiv height 2 + center_y)%R in
  (p1, p2, p3, p4).

(** The body of [if tilt_angle != 0:]. *)
Definition rotate_corners (center_x center_y tilt_angle : R)
    (ps : Point * Point * Point * Point) : Point * Point * Point * Point :=
  let '(p1, p2, p3, p4) := ps in
  let p1 := rotate_point (fst p1) (snd p1) center_x center_y tilt_angle in
  let p2 := rotate_point (fst p2) (snd p2) center_x center_y tilt_angle in
  let p3 := rotate_point (fst p3) (snd p3) center_x center_y tilt_angle in
  let p4 := rotate_point (fst p4) (snd p4) center_x center_y tilt_angle in
  (p1, p2, p3, p4).

Definition rectangle_tilted (center_x center_y width height tilt_angle : R)
  : Point * Point * Point * Point :=
  let ps := rectangle_corners center_x center_y width height in
  if Req_dec_T tilt_angle 0 then ps
  else rotate_corners center_x center_y tilt_angle ps.

Definition draw_rectangle_outline (center_x center_y width height : R)
    (color : Color) (border_width tilt_angle : R) : Draw unit :=
  let '(p1, p2, p3, p4) :=
    rectangle_tilted center_x center_y width height tilt_angle in
  _generic_draw_line_strip [p1; p2; p3; p4] color border_width GL_LINE_LOOP.

Definition draw_rectangle_filled (center_x center_y width height : R)
    (color : Color) (tilt_angle : R) : Draw unit :=
  let '(p1, p2, p3, p4) :=
    rectangle_tilted center_x center_y width height tilt_angle in
  _generic_draw_line_strip [p1; p2; p4; p3] color 1 GL_TRIANGLE_STRIP.

Definition draw_lrtb_rectangle_filled (left right top bottom : R)
    (color : Color) : Draw unit :=
  if Rgt_dec left right then
    eff_raise (AttributeError
      "Left coordinate {} must be less than or equal to the right coordinate {}")
  else if Rgt_dec bottom top then
    eff_raise (AttributeError
      "Bottom coordinate {} must be less than or equal to the top coordinate {}")
  else
    let center_x := ((left + right) / 2)%R in
    let center_y := ((top + bottom) / 2)%R in
    let width := (right - left)%R in
    let height := (top - bottom)%R in
    draw_rectangle_filled center_x center_y width height color 0.

(** ** Textures *)

(** Attribute values of a [Texture] object. *)
Inductive pyval : Type :=
| VInt (n : Z)
| VStr (s : string)
| VLocation (x y width height : Z)
| VNone.

(** [Texture.__init__]: the state is the [__dict__] of [self]. *)
Definition Texture_init (texture_id width height : Z) (file_name : pyval)
  : Eff (gmap string pyval) unit :=
  (let* _ :=
     (if (height <? 0)%Z then
        eff_raise (ValueError
          "Height entered is less than zero. Height must be a positive float.")
      else eff_ret tt) in
   let* _ :=
     (if (width <? 0)%Z then
        eff_raise (ValueError
          "Width entered is less than zero. Width must be a positive float.")
      else eff_ret tt) in
   let* _ := eff_modify (insert "texture_id"%string (VInt texture_id)) in
   let* _ := eff_modify (insert "width"%string (VInt width)) in
   let* _ := eff_modify (insert "height"%string (VInt height)) in
   let* _ := eff_modify (insert "texture_name"%string file_name) in
   let* _ := eff_modify (insert "_sprite"%string VNone) in
   eff_modify (insert "_sprite_list"%string VNone))%eff.

(** The state of the texture functions: the number of texture names GL has
    generated, the [Texture] objects alive (a reference is an index), and
    [load_texture.texture_cache]. *)
Record world : Type := World {
  gl_textures : Z;
  heap : list (gmap string pyval);
  texture_cache : gmap string nat
}.

(** [Texture(texture_id, width, height, file_name)]: a fresh object is
    initialised; it becomes reachable only when [__init__] returns. *)
Definition Texture (texture_id width height : Z) (file_name : pyval)
  : Eff world nat :=
  fun w =>
    match Texture_init texture_id width height file_name ∅ with
    | (inl e, _) => (inl e, w)
    | (inr _, self) =>
      (inr (length (heap w)),
       World (gl_textures w) (heap w ++ [self]) (texture_cache w))
    end.

(** [texture = gl.GLuint(0); gl.glGenTextures(1, ctypes.byref(texture))]. *)
Definition glGenTextures : Eff world Z :=
  fun w =>
    (inr (gl_textures w + 1)%Z,
     World (gl_textures w + 1) (heap w) (texture_cache w)).

(** A PIL image, represented by its size. *)
Definition image : Type := (Z * Z)%type.

(** [PIL.Image.open]: [images] gives the size of each image file. *)
Definition PIL_open {St} (images : string -> option image) (file_name : string)
  : Eff St image :=
  match images file_name with
  | Some im => eff_ret im
  | None => eff_raise FileNotFoundError
  end.

(** [source_image.crop((x0, y0, x1, y1))]: an inverted box gives size 0. *)
Definition PIL_crop (x0 y0 x1 y1 : Z) : image :=
  (Z.max 0 (x1 - x0), Z.max 0 (y1 - y0))%Z.

Definition PIL_mirror (im : image) : image := im.

Definition PIL_flip (im : image) : image := im.

(** A [for] loop in [Eff]. *)
Fixpoint for_each_eff {St A S : Type} (body : S -> A -> Eff St S) (l : list A)
    (s : S) : Eff St S :=
  match l with
  | [] => eff_ret s
  | a :: l' => (let* s' := body s a in for_each_eff body l' s')%eff
  end.

(** The bounds checks shared by [load_textures] and [load_texture]. *)
Definition check_crop {St} (x y width height source_image_width
    source_image_height : Z) : Eff St unit :=
  if (x >? source_image_width)%Z then
    eff_raise (ValueError
      ("Can't load texture starting at an x of " +:+ Py.str_int x
       +:+ " when the image is only " +:+ Py.str_int source_image_width
       +:+ " across."))
  else if (y >? source_image_height)%Z then
    eff_raise (ValueError
      ("Can't load texture starting at an y of " +:+ Py.str_int y
       +:+ " when the image is only " +:+ Py.str_int source_image_height
       +:+ " high."))
  else if (x + width >? source_image_width)%Z then
    eff_raise (ValueError
      ("Can't load texture ending at an x of " +:+ Py.str_int (x + width)
       +:+ " when the image is only " +:+ Py.str_int source_image_width
       +:+ " wide."))
  else if (y + height >? source_image_height)%Z then
    eff_raise (ValueError
      ("Can't load texture ending at an y of " +:+ Py.str_int (y + height)
       +:+ " when the image is only " +:+ Py.str_int source_image_height
       +:+ " high."))
  else eff_ret tt.

(** The body of the loop of [load_textures]. *)
Definition load_textures_step (source_image : image) (mirrored flipped : bool)
    (scale : Z) (texture_info_list : list nat)
    (image_location : Z * Z * Z * Z) : Eff world (list nat) :=
  let '(source_image_width, source_image_height) := source_image in
  let '(x, y, width, height) := image_location in
  (let* _ :=
     (if (width <=? 0)%Z then
        eff_raise (ValueError
          ("Texture has a width of " +:+ Py.str_int width
           +:+ ", must be > 0."))
      else eff_ret tt) in
   let* _ :=
     check_crop x y width height source_image_width source_image_height in
   let image := PIL_crop x y (x + width) (y + height) in
   let image := if mirrored then PIL_mirror image else image in
   let image := if flipped then PIL_flip image else image in
   let '(image_width, image_height) := image in
   let* texture := glGenTextures in
   let image_width := (image_width * scale)%Z in
   let image_height := (image_height * scale)%Z in
   let* t := Texture texture width height (VLocation x y width height) in
   eff_ret (texture_info_list ++ [t]))%eff.

Definition load_textures (images : string -> option image)
    (file_name : string) (image_location_list : list (Z * Z * Z * Z))
    (mirrored flipped : bool) (scale : Z) : Eff world (list nat) :=
  (let* source_image := PIL_open images file_name in
   for_each_eff (load_textures_step source_image mirrored flipped scale)
     image_location_list [])%eff.

(** ["{}{}{}{}{}{}{}{}".format(file_name, x, y, width, height, scale,
    flipped, mirrored)]. *)
Definition cache_name_of (file_name : string) (x y width height scale : Z)
    (flipped mirrored : bool) : string :=
  file_name +:+ Py.str_int x +:+ Py.str_int y +:+ Py.str_int width
    +:+ Py.str_int height +:+ Py.str_int scale +:+ Py.str_bool flipped
    +:+ Py.str_bool mirrored.

Definition load_texture (images : string -> option image) (file_name : string)
    (x y width height : Z) (mirrored flipped : bool) (scale : Z)
  : Eff world nat :=
  let cache_name :=
    cache_name_of file_name x y width height scale flipped mirrored in
  (let* w := eff_get in
   match texture_cache w !! cache_name with
   | Some t => eff_ret t
   | None =>
     let* source_image := PIL_open images file_name in
     let '(source_image_width, source_image_height) := source_image in
     let* image :=
       (if negb ((x =? 0)%Z && (y =? 0)%Z && (width =? 0)%Z && (height =? 0)%Z)
        then
          let* _ :=
            check_crop x y width height source_image_width
              source_image_height in
          eff_ret (PIL_crop x y (x + width) (y + height))
        else eff_ret source_image) in
     let image := if mirrored then PIL_mirror image else image in
     let image := if flipped then PIL_flip image else image in
     let '(image_width, image_height) := image in
     let* texture := glGenTextures in
     let image_width := (image_width * scale)%Z in
     let image_height := (image_height * scale)%Z in
     let* result := Texture texture image_width image_height (VStr file_name) in
     let* _ :=
       eff_modify (fun w =>
         World (gl_textures w) (heap w)
           (<[cache_name := result]> (texture_cache w))) in
     eff_ret result
   end)%eff.

(** ** Reading textures back *)

(** The [__dict__] of a [Texture] whose [__init__] has returned. *)
Definition texture_dict (texture_id width height : Z) (file_name : pyval)
  : gmap string pyval :=
  <["_sprite_list"%string := VNone]>
    (<["_sprite"%string := VNone]>
       (<["texture_name"%string := file_name]>
          (<["height"%string := VInt height]>
             (<["width"%string := VInt width]>
                (<["texture_id"%string := VInt texture_id]> ∅))))).

(** [t.attr] for the texture reference [t]. *)
Definition texture_attr (w : world) (t : nat) (attr : string) : option pyval :=
  match heap w !! t with
  | Some self => self !! attr
  | None => None
  end.

(** The crop rectangles [load_textures] accepts in an image of the given
    size. *)
Definition location_ok (source_image : image) (image_location : Z * Z * Z * Z)
  : Prop :=
  let '(source_image_width, source_image_height) := source_image in
  let '(x, y, width, height) := image_location in
  (0 < width /\ x <= source_image_width /\ y <= source_image_height
   /\ x + width <= source_image_width /\ y + height <= source_image_height
   /\ 0 <= height)%Z.

(** The reported size of a crop rectangle. *)
Definition location_size (image_location : Z * Z * Z * Z)
  : option pyval * option pyval :=
  let '(x, y, width, height) := image_location in
  (Some (VInt width), Some (VInt height)).

(** An image directory for the examples: one 100 x 100 image. *)
Definition example_images (file_name : string) : option image :=
  if String.eqb file_name "a.png" then Some (100, 100)%Z else None.

(** ** The filled arc as the specification words it

    Segment bounds by [floor], angles from [PI]; compared below with
    [arc_filled_unrotated]. *)

Definition spec_arc_filled_points (width height start_angle end_angle : R)
    (num_segments : Z) : list Point :=
  let start_segment := Py.floor (start_angle / 360 * IZR num_segments) in
  let end_segment := Py.floor (end_angle / 360 * IZR num_segments) in
  (0, 0)%R ::
  map (fun segment =>
         let theta := (2 * PI * IZR segment / IZR num_segments)%R in
         (width * cos theta, height * sin theta)%R)
      (Py.range start_segment (end_segment + 1)).

(** ** Further colour functions *)

(** A float colour: four channels. *)
Definition FloatColor : Type := (R * R * R * R)%type.

Definition get_four_float_color (color : Color) : exn + FloatColor :=
  if (length color =? 4)%nat then
    inr (IZR (nth 0 color 0%Z) / 255, IZR (nth 1 color 0%Z) / 255,
         IZR (nth 2 color 0%Z) / 255, IZR (nth 3 color 0%Z) / 255)%R
  else if (length color =? 3)%nat then
    inr (IZR (nth 0 color 0%Z) / 255, IZR (nth 1 color 0%Z) / 255,
         IZR (nth 2 color 0%Z) / 255, 1)%R
  else inl (ValueError "This isn't a 3 or 4 byte color").

(** The exception of [color[i]] on a sequence that is too short. *)
Inductive index_exn : Type := IndexError.

(** [color[i]]. *)
Definition getitem (color : Color) (i : nat) : index_exn + Z :=
  match nth_error color i with
  | Some c => inr c
  | None => inl IndexError
  end.

(** The alpha given is a channel value, embedded as the other channels. *)
Definition make_transparent_color (color : Color) (transparency : Z)
  : index_exn + Color :=
  match getitem color 0 with
  | inl e => inl e
  | inr c0 =>
    match getitem color 1 with
    | inl e => inl e
    | inr c1 =>
      match getitem color 2 with
      | inl e => inl e
      | inr c2 => inr [c0; c1; c2; transparency]
      end
    end
  end.

(** ** Further drawing functions *)

Definition draw_parabola_filled (start_x start_y end_x height : R)
    (color : Color) (tilt_angle : R) : Draw unit :=
  let center_x := ((start_x + end_x) / 2)%R in
  let center_y := (start_y + height)%R in
  let start_angle := 0%float in
  let end_angle := 180%float in
  let width := (start_x - end_x)%R in
  draw_arc_filled center_x center_y width height color start_angle end_angle
    tilt_angle 128.

Definition draw_parabola_outline (start_x start_y end_x height : R)
    (color : Color) (border_width tilt_angle : R) : Draw unit :=
  let center_x := ((start_x + end_x) / 2)%R in
  let center_y := (start_y + height)%R in
  let start_angle := 0%float in
  let end_angle := 180%float in
  let width := (start_x - end_x)%R in
  draw_arc_outline center_x center_y width height color start_angle end_angle
    border_width tilt_angle 128.

Definition draw_circle_filled (center_x center_y radius : R) (color : Color)
  : Draw unit :=
  let width := radius in
  let height := radius in
  draw_ellipse_filled center_x center_y width height color 0 128.

Definition draw_circle_outline (center_x center_y radius : R) (color : Color)
    (border_width : R) : Draw unit :=
  let width := radius in
  let height := radius in
  draw_ellipse_outline center_x center_y width height color border_width 0 128.

Definition draw_line_strip (point_list : list Point) (color : Color)
    (line_width : R) : Draw unit :=
  _generic_draw_line_strip point_list color line_width GL_LINE_STRIP.

Definition draw_line (start_x start_y end_x end_y : R) (color : Color)
    (line_width : R) : Draw unit :=
  let points := [(start_x, start_y); (end_x, end_y)] in
  draw_line_strip points color line_width.

Definition draw_lines (point_list : list Point) (color : Color)
    (line_width : R) : Draw unit :=
  _generic_draw_line_strip point_list color line_width GL_LINES.

Definition draw_point (x y : R) (color : Color) (size : R) : Draw unit :=
  let point_list := [(x, y)] in
  _generic_draw_line_strip point_list color size GL_POINTS.

Definition draw_points (point_list : list Point) (color : Color) (size : R)
  : Draw unit :=
  _generic_draw_line_strip point_list color size GL_POINTS.

Definition draw_polygon_filled (point_list : list Point) (color : Color)
  : Draw unit :=
  _generic_draw_line_strip point_list color 1 GL_POLYGON.

Definition draw_polygon_outline (point_list : list Point) (color : Color)
    (line_width : R) : Draw unit :=
  _generic_draw_line_strip point_list color line_width GL_LINE_LOOP.

Definition draw_triangle_filled (x1 y1 x2 y2 x3 y3 : R) (color : Color)
  : Draw unit :=
  let first_point := (x1, y1) in
  let second_point := (x2, y2) in
  let third_point := (x3, y3) in
  let point_list := [first_point; second_point; third_point] in
  draw_polygon_filled point_list color.

Definition draw_triangle_outline (x1 y1 x2 y2 x3 y3 : R) (color : Color)
    (border_width : R) : Draw unit :=
  let first_point := (x1, y1) in
  let second_point := (x2, y2) in
  let third_point := (x3, y3) in
  let point_list := [first_point; second_point; third_point] in
  draw_polygon_outline point_list color border_width.

Definition draw_lrtb_rectangle_outline (left right top bottom : R)
    (color : Color) (border_width : R) : Draw unit :=
  if Rgt_dec left right then
    eff_raise (AttributeError
      "Left coordinate must be less than or equal to the right coordinate")
  else if Rgt_dec bottom top then
    eff_raise (AttributeError
      "Bottom coordinate must be less than or equal to the top coordinate")
  else
    let center_x := ((left + right) / 2)%R in
    let center_y := ((top + bottom) / 2)%R in
    let width := (right - left)%R in
    let height := (top - bottom)%R in
    draw_rectangle_outline center_x center_y width height color border_width 0.

Definition draw_xywh_rectangle_outline (bottom_left_x bottom_left_y width
    height : R) (color : Color) (border_width : R) : Draw unit :=
  let center_x := (bottom_left_x + width / 2)%R in
  let center_y := (bottom_left_y + height / 2)%R in
  draw_rectangle_outline center_x center_y width height color border_width 0.

Definition draw_xywh_rectangle_filled (bottom_left_x bottom_left_y width
    height : R) (color : Color) : Draw unit :=
  let center_x := (bottom_left_x + width / 2)%R in
  let center_y := (bottom_left_y + height / 2)%R in
  draw_rectangle_filled center_x center_y width height color 0.

(** ** Predicates of the properties *)

(** A drawing either appends one draw call, with a 4-channel colour, or
    raises and leaves the context as it was. *)
Definition draws_once_or_nothing (m : Draw unit) : Prop :=
  forall g : gl_context,
    (exists c, m g = (inr tt, g ++ [c]) /\ length (dc_color c) = 4%nat)
    \/ (exists e, m g = (inl e, g)).

(** The cache refers to live objects, and no two keys to the same one. *)
Definition cache_ok (w : world) : Prop :=
  (forall k t, texture_cache w !! k = Some t -> (t < length (heap w))%nat)
  /\ (forall k1 k2 t,
        texture_cache w !! k1 = Some t -> texture_cache w !! k2 = Some t ->
        k1 = k2).

(** [w'] keeps every object, cache entry and texture name of [w]. *)
Definition world_grows (w w' : world) : Prop :=
  (exists objs, heap w' = heap w ++ objs)
  /\ (forall k t, texture_cache w !! k = Some t ->
                 texture_cache w' !! k = Some t)
  /\ (gl_textures w <= gl_textures w')%Z.

(** * Properties *)

(** ** Floors, truncation and rounding *)

Section Numbers.

Local Open Scope R_scope.

Lemma Int_part_eq (r : R) (z : Z) : IZR z <= r < IZR z + 1 -> Int_part r = z.
Proof.
  intros [Hlo Hhi]. symmetry. apply Int_part_spec. lra.
Qed.

Lemma Int_part_bounds (r : R) : IZR (Int_part r) <= r < IZR (Int_part r) + 1.
Proof.
  destruct (base_Int_part r) as [Hle Hgt]. lra.
Qed.

Lemma Int_part_IZR (z : Z) : Int_part (IZR z) = z.
Proof.
  apply Int_part_eq. lra.
Qed.

Lemma Int_part_div (a b : Z) :
  (0 < b)%Z -> Int_part (IZR a / IZR b) = (a / b)%Z.
Proof.
  intros Hb.
  assert (HbR : 0 < IZR b) by (apply IZR_lt in Hb; exact Hb).
  pose proof (Z.div_mod a b ltac:(lia)) as Hdm.
  pose proof (Z.mod_pos_bound a b Hb) as [Hr0 Hr1].
  assert (Ha : IZR a = IZR b * IZR (a / b) + IZR (a mod b)).
  { rewrite <- mult_IZR, <- plus_IZR. f_equal. exact Hdm. }
  apply IZR_le in Hr0. apply IZR_lt in Hr1.
  apply Int_part_eq. rewrite Ha. split.
  - apply Rmult_le_reg_r with (IZR b); [exact HbR|].
    unfold Rdiv. rewrite Rmult_assoc, Rinv_l by lra. lra.
  - apply Rmult_lt_reg_r with (IZR b); [exact HbR|].
    unfold Rdiv. rewrite Rmult_assoc, Rinv_l by lra. lra.
Qed.

Lemma py_int_nonneg (x : R) : 0 <= x -> Py.int x = Py.floor x.
Proof.
  intros Hx. unfold Py.int, Py.floor. destruct (Rle_dec 0 x); [reflexivity|lra].
Qed.

Lemma py_int_IZR (z : Z) : Py.int (IZR z) = z.
Proof.
  unfold Py.int. destruct (Rle_dec 0 (IZR z)).
  - apply Int_part_IZR.
  - rewrite <- opp_IZR, Int_part_IZR. lia.
Qed.

Lemma round_half_even_eq (r : R) (z : Z) :
  IZR z - 1 / 2 < r < IZR z + 1 / 2 -> Py.round_half_even r = z.
Proof.
  intros [Hlo Hhi]. unfold Py.round_half_even.
  destruct (Rle_dec (IZR z) r) as [Hge|Hlt].
  - rewrite (Int_part_eq r z) by lra.
    destruct (Rlt_dec (r - IZR z) (1 / 2)); [reflexivity|lra].
  - rewrite (Int_part_eq r (z - 1)) by (rewrite minus_IZR; lra).
    rewrite minus_IZR.
    destruct (Rlt_dec (r - (IZR z - 1)) (1 / 2)); [lra|].
    destruct (Rlt_dec (1 / 2) (r - (IZR z - 1))); [lia|lra].
Qed.

Lemma round_half_even_IZR (z : Z) : Py.round_half_even (IZR z) = z.
Proof.
  apply round_half_even_eq. lra.
Qed.

Lemma round_half_even_near (r : R) :
  - (1 / 2) <= IZR (Py.round_half_even r) - r <= 1 / 2.
Proof.
  unfold Py.round_half_even.
  pose proof (Int_part_bounds r) as [Hlo Hhi].
  destruct (Rlt_dec (r - IZR (Int_part r)) (1 / 2)); [lra|].
  destruct (Rlt_dec (1 / 2) (r - IZR (Int_part r))).
  - rewrite plus_IZR. lra.
  - destruct (Z.even (Int_part r)); [lra|rewrite plus_IZR; lra].
Qed.

(** [round(x, 2)] leaves a multiple of 1/100 unchanged. *)
Lemma round2_centesimal (k : Z) : Py.round (IZR k / 100) 2 = IZR k / 100.
Proof.
  unfold Py.round.
  replace (IZR k / 100 * 10 ^ 2) with (IZR k) by (simpl; lra).
  rewrite round_half_even_IZR. simpl. lra.
Qed.

Lemma round2_IZR (k : Z) : Py.round (IZR k) 2 = IZR k.
Proof.
  unfold Py.round.
  replace (IZR k * 10 ^ 2) with (IZR (k * 100)) by (rewrite mult_IZR; simpl; lra).
  rewrite round_half_even_IZR, mult_IZR. simpl. lra.
Qed.

(** [round(x, 2)] is a multiple of 1/100 within 1/200 of [x]. *)
Lemma round2_spec (x : R) :
  exists k : Z, Py.round x 2 = IZR k / 100 /\ Rabs (IZR k / 100 - x) <= 1 / 200.
Proof.
  exists (Py.round_half_even (x * 10 ^ 2)). split.
  - unfold Py.round. simpl. f_equal. lra.
  - pose proof (round_half_even_near (x * 10 ^ 2)) as H.
    set (k := Py.round_half_even (x * 10 ^ 2)) in *.
    replace (x * 10 ^ 2) with (x * 100) in H by (simpl; lra).
    apply Rabs_le. lra.
Qed.

Lemma rotate_point_zero (x y cx cy : R) :
  rotate_point x y cx cy 0 = (Py.round x 2, Py.round y 2).
Proof.
  unfold rotate_point, Py.radians.
  replace (0 * PI / 180) with 0 by lra.
  rewrite cos_0, sin_0. f_equal; f_equal; lra.
Qed.

End Numbers.

(** ** Doubles *)

Section Doubles.

(** A mantissa already in canonical form is not shifted. *)
Lemma shr_fexp_canonical (m : positive) (e : Z) :
  fexp prec emax (Z.pos (digits2_pos m) + e) = e ->
  shr_fexp prec emax (Z.pos m) e loc_Exact =
  (Build_shr_record (Z.pos m) false false, e).
Proof.
  intros Hc. unfold shr_fexp. cbn [Zdigits2]. rewrite Hc, Z.sub_diag.
  reflexivity.
Qed.

Lemma binary_round_aux_canonical (s : bool) (m : positive) (e : Z) :
  fexp prec emax (Z.pos (digits2_pos m) + e) = e ->
  (e <= emax - prec)%Z ->
  binary_round_aux prec emax s (Z.pos m) e loc_Exact = S754_finite s m e.
Proof.
  intros Hc Hb. unfold binary_round_aux.
  rewrite (shr_fexp_canonical m e Hc).
  cbn [shr_m loc_of_shr_record round_nearest_even].
  rewrite (shr_fexp_canonical m e Hc). cbn [shr_m].
  apply Z.leb_le in Hb. now rewrite Hb.
Qed.

(** A canonical mantissa times 2^52, with the exponent lowered by 52, is
    shifted back to where it was. *)
Lemma shr_fexp_shifted (m : positive) (e : Z) :
  fexp prec emax (Z.pos (digits2_pos m) + e) = e ->
  shr_fexp prec emax (Z.pos (4503599627370496 * m)) (-52 + e) loc_Exact =
  (Build_shr_record (Z.pos m) false false, e).
Proof.
  intros Hc.
  change (4503599627370496 * m)%positive with
    (m~0~0~0~0~0~0~0~0~0~0~0~0~0~0~0~0~0~0~0~0~0~0~0~0~0~0
      ~0~0~0~0~0~0~0~0~0~0~0~0~0~0~0~0~0~0~0~0~0~0~0~0~0~0)%positive.
  unfold shr_fexp. cbn [Zdigits2 digits2_pos].
  rewrite !Pos2Z.inj_succ.
  match goal with
  | |- shr _ _ (fexp _ _ ?a - _)%Z = _ =>
    replace a with (Z.pos (digits2_pos m) + e)%Z by lia
  end.
  rewrite Hc. replace (e - (-52 + e))%Z with 52%Z by lia.
  cbn [shr shr_record_of_loc iter_pos shr_1 orb].
  f_equal. lia.
Qed.

Lemma SFmul_one_l (s : bool) (m : positive) (e : Z) :
  valid_binary (S754_finite s m e) = true ->
  SFmul prec emax (S754_finite false 4503599627370496 (-52))
    (S754_finite s m e) = S754_finite s m e.
Proof.
  intros Hv. unfold valid_binary, SpecFloat.valid_binary, SpecFloat.bounded in Hv.
  apply andb_true_iff in Hv as [Hc Hb].
  unfold canonical_mantissa in Hc. apply Z.eqb_eq in Hc. apply Z.leb_le in Hb.
  rewrite <- (binary_round_aux_canonical s m e Hc Hb) at 2.
  unfold SFmul. cbn [xorb]. unfold binary_round_aux.
  now rewrite shr_fexp_shifted, shr_fexp_canonical.
Qed.



Lemma double_mul_one_l (x : float) : (1 * x)%float = x.
Proof.
  apply Prim2SF_inj. rewrite mul_spec.
  change (Prim2SF 1) with (S754_finite false 4503599627370496 (-52)).
  pose proof (Prim2SF_valid x) as Hv.
  destruct (Prim2SF x) as [s|s| |s m e]; try reflexivity.
  now apply SFmul_one_l.
Qed.






Lemma digits2_pos_iter (p k : positive) :
  Z.pos (digits2_pos (Pos.iter xO p k)) = (Z.pos (digits2_pos p) + Z.pos k)%Z.
Proof.
  induction k as [|k IH] using Pos.peano_ind.
  - cbn [Pos.iter digits2_pos]. lia.
  - rewrite Pos.iter_succ. cbn [digits2_pos]. lia.
Qed.

Lemma Zpos_iter (p k : positive) :
  Z.pos (Pos.iter xO p k) = (Z.pos p * 2 ^ Z.pos k)%Z.
Proof.
  induction k as [|k IH] using Pos.peano_ind.
  - cbn [Pos.iter]. lia.
  - rewrite Pos.iter_succ, Pos2Z.inj_xO, IH, Pos2Z.inj_succ, Z.pow_succ_r
      by lia.
    lia.
Qed.

Lemma digits2_pos_lower (p : positive) :
  (2 ^ (Z.pos (digits2_pos p) - 1) <= Z.pos p)%Z.
Proof.
  induction p as [p IH|p IH|]; cbn [digits2_pos].
  - rewrite Pos2Z.inj_succ.
    replace (Z.succ (Z.pos (digits2_pos p)) - 1)%Z
      with (Z.succ (Z.pos (digits2_pos p) - 1)) by lia.
    rewrite Z.pow_succ_r by lia. lia.
  - rewrite Pos2Z.inj_succ.
    replace (Z.succ (Z.pos (digits2_pos p)) - 1)%Z
      with (Z.succ (Z.pos (digits2_pos p) - 1)) by lia.
    rewrite Z.pow_succ_r by lia. lia.
  - reflexivity.
Qed.

Lemma digits2_pos_small (p : positive) :
  (Z.pos p < 2 ^ 53)%Z -> (Z.pos (digits2_pos p) <= 53)%Z.
Proof.
  intros Hp.
  destruct (Z_le_gt_dec (Z.pos (digits2_pos p)) 53) as [|Hgt]; [assumption|].
  pose proof (digits2_pos_lower p) as Hlo.
  assert (2 ^ 53 <= 2 ^ (Z.pos (digits2_pos p) - 1))%Z
    by (apply Z.pow_le_mono_r; lia).
  lia.
Qed.

(** A positive int below 2^53 is a double. *)
Lemma binary_normalize_small (p : positive) :
  (Z.pos p < 2 ^ 53)%Z ->
  exists m e,
    binary_normalize prec emax (Z.pos p) 0 false = S754_finite false m e
    /\ valid_binary (S754_finite false m e) = true
    /\ Z.shiftl (Z.pos m) e = Z.pos p.
Proof.
  intros Hp. pose proof (digits2_pos_small p Hp) as Hd.
  unfold binary_normalize, binary_round.
  set (d := Z.pos (digits2_pos p)) in *.
  assert (Hd1 : (1 <= d)%Z) by (unfold d; lia).
  rewrite Z.add_0_r.
  assert (Hfexp : fexp prec emax d = (d - 53)%Z).
  { unfold fexp, emin, prec, emax. lia. }
  rewrite Hfexp. unfold shl_align. rewrite Z.sub_0_r.
  destruct (d - 53)%Z as [|k|k] eqn:Hk; [|lia|].
  - assert (Hc : fexp prec emax (Z.pos (digits2_pos p) + 0) = 0%Z).
    { fold d. rewrite Z.add_0_r. exact Hfexp. }
    exists p, 0%Z. split; [|split].
    + apply binary_round_aux_canonical; [exact Hc|unfold emax, prec; lia].
    + unfold valid_binary, SpecFloat.valid_binary, SpecFloat.bounded,
        canonical_mantissa.
      rewrite Hc. reflexivity.
    + reflexivity.
  - assert (Hc : fexp prec emax
                   (Z.pos (digits2_pos (Pos.iter xO p k)) + Z.neg k)
                 = Z.neg k).
    { rewrite digits2_pos_iter. fold d. unfold fexp, emin, prec, emax. lia. }
    exists (Pos.iter xO p k), (Z.neg k). split; [|split].
    + apply binary_round_aux_canonical; [exact Hc|unfold emax, prec; lia].
    + unfold valid_binary, SpecFloat.valid_binary, SpecFloat.bounded,
        canonical_mantissa.
      rewrite Hc, Z.eqb_refl. apply Z.leb_le. unfold emax, prec. lia.
    + rewrite Z.shiftl_div_pow2 by lia. rewrite Zpos_iter.
      change (- Z.neg k)%Z with (Z.pos k). apply Z.div_mul.
      apply Z.pow_nonzero; lia.
Qed.

Lemma of_int_small (n : Z) :
  (0 < n < 2 ^ 53)%Z ->
  exists x m e,
    Double.of_int n = inr x
    /\ Prim2SF x = S754_finite false m e
    /\ Z.shiftl (Z.pos m) e = n.
Proof.
  intros [Hpos Hlt]. destruct n as [|p|p]; try lia.
  destruct (binary_normalize_small p Hlt) as (m & e & Hn & Hv & Hval).
  exists (SF2Prim (S754_finite false m e)), m, e.
  unfold Double.of_int. rewrite Hn. split; [reflexivity|].
  split; [now apply Prim2SF_SF2Prim|exact Hval].
Qed.

(** [int(x)] is the truncation of the exact value of [x]. *)
Lemma to_int_trunc (x : float) (z : Z) :
  Double.to_int x = inr z -> z = Py.int (Double.to_R x).
Proof.
  unfold Double.to_int, Double.to_R.
  destruct (Prim2SF x) as [s|s| |s m e]; try discriminate.
  - intros H. injection H as <-. symmetry. apply (py_int_IZR 0).
  - intros H. injection H as <-.
    destruct (Z.leb_spec 0 e) as [He|He].
    + rewrite Z.shiftl_mul_pow2 by exact He.
      destruct s; cbn [cond_Zopp].
      * now rewrite <- opp_IZR, py_int_IZR.
      * now rewrite py_int_IZR.
    + rewrite Z.shiftl_div_pow2 by lia.
      assert (Hp : (0 < 2 ^ (- e))%Z) by (apply Z.pow_pos_nonneg; lia).
      assert (HpR : (0 < IZR (2 ^ (- e)))%R) by (now apply IZR_lt in Hp).
      assert (HmR : (0 < IZR (Z.pos m))%R) by (apply IZR_lt; lia).
      pose proof (Rdiv_lt_0_compat _ _ HmR HpR) as Hv.
      unfold Py.int. destruct s; cbn [cond_Zopp].
      * destruct (Rle_dec 0 (- (IZR (Z.pos m) / IZR (2 ^ (- e)))));
          [lra|].
        now rewrite Ropp_involutive, Int_part_div.
      * destruct (Rle_dec 0 (IZR (Z.pos m) / IZR (2 ^ (- e)))); [|lra].
        now rewrite Int_part_div.
Qed.

(** The decimal literal of the code is below pi. *)
Lemma literal_below_PI : (3.1415926 < PI)%R.
Proof.
  pose proof (PI_2_3_7_ineq 3) as [Hlo _].
  unfold sum_f_R0, tg_alt, PI_2_3_7_tg, Ratan_seq in Hlo.
  simpl in Hlo. lra.
Qed.

End Doubles.

(** ** Loops as maps *)

Lemma append_loop_map {A B : Type} (f : A -> B) (l : list A) (acc : list B) :
  fold_left (fun acc a => acc ++ [f a]) l acc = acc ++ map f l.
Proof.
  revert acc. induction l as [|a l IH]; intros acc; simpl.
  - now rewrite app_nil_r.
  - rewrite IH, <- app_assoc. reflexivity.
Qed.

Lemma rotate_all_map (tilt_angle : R) (pts : list Point) :
  rotate_all tilt_angle pts =
  map (fun p => rotate_point (fst p) (snd p) 0 0 tilt_angle) pts.
Proof.
  unfold rotate_all. now rewrite append_loop_map.
Qed.

Lemma center_all_map (center_x center_y : R) (pts : list Point) :
  center_all center_x center_y pts =
  map (fun p => (fst p + center_x, snd p + center_y)%R) pts.
Proof.
  unfold center_all. now rewrite append_loop_map.
Qed.

(** ** Colours *)

(** C7: [get_four_byte_color] returns a 4-channel colour unchanged, appends
    alpha 255 to a 3-channel colour and keeps its three channels, and raises
    [ValueError] for every other number of channels. *)
Theorem get_four_byte_color_spec (color : Color) :
  (length color = 4%nat -> get_four_byte_color color = inr color)
  /\ (length color = 3%nat ->
      exists r g b : Z,
        color = [r; g; b]
        /\ get_four_byte_color color = inr [r; g; b; 255%Z])
  /\ (length color <> 3%nat -> length color <> 4%nat ->
      exists msg, get_four_byte_color color = inl (ValueError msg)).
Proof.
  unfold get_four_byte_color. repeat split.
  - intros ->. reflexivity.
  - intros Hlen.
    destruct color as [|r [|g [|b [|a tl]]]]; try discriminate Hlen.
    exists r, g, b. split; reflexivity.
  - intros H3 H4.
    destruct (Nat.eqb_spec (length color) 4); [contradiction|].
    destruct (Nat.eqb_spec (length color) 3); [contradiction|].
    eexists. reflexivity.
Qed.

Lemma get_four_byte_color_witness :
  get_four_byte_color [10; 20; 30; 40]%Z = inr [10; 20; 30; 40]%Z
  /\ (exists r g b : Z,
        [10; 20; 30]%Z = [r; g; b]
        /\ get_four_byte_color [10; 20; 30]%Z = inr [r; g; b; 255%Z])
  /\ (exists msg, get_four_byte_color [10; 20]%Z = inl (ValueError msg)).
Proof.
  split; [|split].
  - apply (proj1 (get_four_byte_color_spec [10; 20; 30; 40]%Z)). reflexivity.
  - apply (proj1 (proj2 (get_four_byte_color_spec [10; 20; 30]%Z))).
    reflexivity.
  - apply (proj2 (proj2 (get_four_byte_color_spec [10; 20]%Z)));
      simpl; lia.
Defined.

(** ** Rotation *)

Section Rotation.

Local Open Scope float_scope.

Lemma double_pair_neq (a b c d : float) :
  Prim2SF a <> Prim2SF c -> (a, b) <> (c, d).
Proof.
  intros Hne H. injection H as Hac _. apply Hne. now rewrite Hac.
Qed.

(** C8, as stated, fails: in double precision, with [cos 0.0 = 1.0] and
    [sin 0.0 = 0.0], the rotation of (0.015, 0) by 0 degrees about (1, 0)
    returns the abscissa 0.02 where [round(0.015, 2)] is 0.01: the point
    is moved to the centre and back before it is rounded, and
    [0.015 - 1 + 1] is 0.015000000000000013. *)
Lemma rotate_point_zero_not_round :
  (forall cos sin : float -> float,
     cos 0 = 1 -> sin 0 = 0 ->
     Double.rotate_point cos sin 0.015 0 1 0 0 = (0.02, 0))
  /\ (Double.round 0.015 2, Double.round 0 2) = (0.01, 0)
  /\ 0.015 - 1 + 1 = 0.015000000000000013
  /\ (0.02, 0) <> (0.01, 0).
Proof.
  split; [|split; [|split]].
  - intros cos sin Hcos Hsin. unfold Double.rotate_point.
    change (Double.radians 0) with 0. rewrite Hcos, Hsin.
    vm_compute. reflexivity.
  - vm_compute. reflexivity.
  - vm_compute. reflexivity.
  - apply double_pair_neq. vm_compute. discriminate.
Qed.



End Rotation.

(** ** Rectangles *)

Section Rectangles.

Local Open Scope R_scope.

Lemma floordiv_IZR (a : Z) : Py.floordiv (IZR a) 2 = IZR (a / 2).
Proof.
  unfold Py.floordiv. now rewrite Int_part_div by lia.
Qed.

Lemma rectangle_corners_Z (cx cy w h : Z) :
  rectangle_corners (IZR cx) (IZR cy) (IZR w) (IZR h) =
  ((IZR (- w / 2 + cx), IZR (- h / 2 + cy)),
   (IZR (w / 2 + cx), IZR (- h / 2 + cy)),
   (IZR (w / 2 + cx), IZR (h / 2 + cy)),
   (IZR (- w / 2 + cx), IZR (h / 2 + cy))).
Proof.
  unfold rectangle_corners.
  rewrite <- !opp_IZR, !floordiv_IZR, <- !plus_IZR. reflexivity.
Qed.

Lemma rectangle_corners_example :
  rectangle_corners 10 10 5 7 = ((7, 6), (12, 6), (12, 13), (7, 13)).
Proof.
  exact (rectangle_corners_Z 10 10 5 7).
Qed.

Lemma rectangle_tilted_zero (cx cy w h : R) :
  rectangle_tilted cx cy w h 0 = rectangle_corners cx cy w h.
Proof.
  unfold rectangle_tilted. destruct (Req_dec_T 0 0); [reflexivity|lra].
Qed.

(** C1, as stated, fails: for centre (10, 10), width 5 and height 7 the
    corners are not (8,7), (12,7), (12,13), (8,13), and the strip submitted
    is not the one built from them. *)
Lemma draw_rectangle_filled_claimed_corners_wrong :
  rectangle_tilted 10 10 5 7 0 <> ((8, 7), (12, 7), (12, 13), (8, 13))
  /\ snd (draw_rectangle_filled 10 10 5 7 [0; 0; 0]%Z 0 []) <>
     [DrawCall GL_TRIANGLE_STRIP [(8, 7); (12, 7); (8, 13); (12, 13)]
        [0; 0; 0; 255]%Z 1].
Proof.
  split.
  - rewrite rectangle_tilted_zero, rectangle_corners_example.
    intros H. injection H as H1 H2. lra.
  - unfold draw_rectangle_filled.
    rewrite rectangle_tilted_zero, rectangle_corners_example. simpl.
    intros H. injection H as H1 H2. lra.
Qed.

(** C1, amended: the corners are the floor of [-width / 2] (resp. of
    [width / 2], [-height / 2], [height / 2]) plus the centre coordinate;
    for centre (10, 10), width 5 and height 7 they are (7,6), (12,6),
    (12,13), (7,13), and the list submitted is (p1, p2, p4, p3) as a
    triangle strip. *)
Theorem draw_rectangle_filled_example :
  (forall cx cy w h : Z,
     rectangle_corners (IZR cx) (IZR cy) (IZR w) (IZR h) =
     ((IZR (- w / 2 + cx), IZR (- h / 2 + cy)),
      (IZR (w / 2 + cx), IZR (- h / 2 + cy)),
      (IZR (w / 2 + cx), IZR (h / 2 + cy)),
      (IZR (- w / 2 + cx), IZR (h / 2 + cy))))
  /\ rectangle_tilted 10 10 5 7 0 = ((7, 6), (12, 6), (12, 13), (7, 13))
  /\ (forall color g,
        draw_rectangle_filled 10 10 5 7 color 0 g =
        _generic_draw_line_strip [(7, 6); (12, 6); (7, 13); (12, 13)]
          color 1 GL_TRIANGLE_STRIP g)
  /\ snd (draw_rectangle_filled 10 10 5 7 [0; 0; 0]%Z 0 []) =
     [DrawCall GL_TRIANGLE_STRIP [(7, 6); (12, 6); (7, 13); (12, 13)]
        [0; 0; 0; 255]%Z 1].
Proof.
  split; [exact rectangle_corners_Z|].
  split; [now rewrite rectangle_tilted_zero, rectangle_corners_example|].
  split.
  - intros color g. unfold draw_rectangle_filled.
    now rewrite rectangle_tilted_zero, rectangle_corners_example.
  - unfold draw_rectangle_filled.
    now rewrite rectangle_tilted_zero, rectangle_corners_example.
Qed.

Lemma generic_draw_no_attribute_error (pts : list Point) (color : Color)
    (lw : R) (mode : gl_mode) (g : gl_context) (msg : string) :
  fst (_generic_draw_line_strip pts color lw mode g) <> inl (AttributeError msg).
Proof.
  unfold _generic_draw_line_strip, eff_bind, eff_lift, get_four_byte_color.
  destruct (length color =? 4)%nat; [discriminate|].
  destruct (length color =? 3)%nat; discriminate.
Qed.

(** C6: [draw_lrtb_rectangle_filled] raises [AttributeError] whenever
    [left > right] or [bottom > top], with the GL context untouched (no draw
    call issued); when [left <= right] and [bottom <= top] it is
    [draw_rectangle_filled] at the centre and size of the box and raises no
    [AttributeError]. *)
Theorem draw_lrtb_rectangle_filled_bounds (left right top bottom : R)
    (color : Color) (g : gl_context) :
  (left > right \/ bottom > top ->
   exists msg,
     draw_lrtb_rectangle_filled left right top bottom color g =
     (inl (AttributeError msg), g))
  /\ (left <= right -> bottom <= top ->
      draw_lrtb_rectangle_filled left right top bottom color g =
      draw_rectangle_filled ((left + right) / 2) ((top + bottom) / 2)
        (right - left) (top - bottom) color 0 g
      /\ forall msg,
           fst (draw_lrtb_rectangle_filled left right top bottom color g) <>
           inl (AttributeError msg)).
Proof.
  unfold draw_lrtb_rectangle_filled. split.
  - intros Hbad. destruct (Rgt_dec left right) as [Hl|Hl].
    + eexists. reflexivity.
    + destruct (Rgt_dec bottom top) as [Hb|Hb].
      * eexists. reflexivity.
      * lra.
  - intros Hl Hb.
    destruct (Rgt_dec left right); [lra|].
    destruct (Rgt_dec bottom top); [lra|].
    split; [reflexivity|]. intros msg. unfold draw_rectangle_filled.
    destruct (rectangle_tilted _ _ _ _ 0) as [[[p1 p2] p3] p4].
    apply generic_draw_no_attribute_error.
Qed.

Lemma draw_lrtb_rectangle_filled_bounds_witness :
  (exists msg,
     draw_lrtb_rectangle_filled 2 1 3 1 [0; 0; 0]%Z [] =
     (inl (AttributeError msg), []))
  /\ (exists msg,
        draw_lrtb_rectangle_filled 1 2 3 4 [0; 0; 0]%Z [] =
        (inl (AttributeError msg), []))
  /\ (forall msg,
        fst (draw_lrtb_rectangle_filled 1 2 3 1 [0; 0; 0]%Z []) <>
        inl (AttributeError msg)).
Proof.
  split; [|split].
  - apply (proj1 (draw_lrtb_rectangle_filled_bounds 2 1 3 1 [0; 0; 0]%Z [])).
    left. lra.
  - apply (proj1 (draw_lrtb_rectangle_filled_bounds 1 2 3 4 [0; 0; 0]%Z [])).
    right. lra.
  - apply (proj2 (draw_lrtb_rectangle_filled_bounds 1 2 3 1 [0; 0; 0]%Z []));
      lra.
Defined.

End Rectangles.

(** ** Tilt *)

Section Tilt.

Local Open Scope R_scope.

Lemma round2_point_centesimal (p : Point) : centesimal p -> round2_point p = p.
Proof.
  intros (kx & ky & ->). unfold round2_point. simpl.
  now rewrite !round2_centesimal.
Qed.

Lemma rotate_all_zero (pts : list Point) :
  rotate_all 0 pts = map round2_point pts.
Proof.
  rewrite rotate_all_map. apply map_ext. intros [x y].
  apply rotate_point_zero.
Qed.

Lemma for_each_arc_filled_step (width height : R) (num_segments : Z)
    (segments : list Z) (acc : list Point) :
  num_segments <> 0%Z ->
  for_each (arc_filled_step width height num_segments) segments acc =
  inr (acc ++
       map (fun segment =>
              (width * cos (2 * 3.1415926 * IZR segment / IZR num_segments),
               height * sin (2 * 3.1415926 * IZR segment / IZR num_segments)))
           segments).
Proof.
  intros HN. revert acc.
  induction segments as [|segment segments IH]; intros acc; simpl.
  - now rewrite app_nil_r.
  - unfold arc_filled_step at 1, truediv.
    destruct (Z.eqb_spec num_segments 0); [contradiction|].
    rewrite IH, <- app_assoc. reflexivity.
Qed.

Lemma ellipse_unrotated_tiny :
  ellipse_unrotated (1 / 1000) 0 1 = inr [(1 / 1000, 0)].
Proof.
  unfold ellipse_unrotated. rewrite for_each_arc_filled_step by lia.
  change (Py.range 0 1) with [0%Z]. simpl.
  match goal with
  | |- context [cos ?theta] => replace theta with 0 by lra
  end.
  rewrite cos_0, sin_0. do 3 f_equal; lra.
Qed.

(** C5, as stated, fails: for the ellipse of width 1/1000, height 0 and one
    segment, the rotation loop run with angle 0 does not give the list the
    [tilt_angle == 0] branch gives. *)
Lemma tilt_zero_not_identity :
  ellipse_unrotated (1 / 1000) 0 1 = inr [(1 / 1000, 0)]
  /\ tilt_branch 0 [(1 / 1000, 0)] = [(1 / 1000, 0)]
  /\ rotate_all 0 [(1 / 1000, 0)] = [(0, 0)]
  /\ rotate_all 0 [(1 / 1000, 0)] <> tilt_branch 0 [(1 / 1000, 0)].
Proof.
  assert (Hround : Py.round (1 / 1000) 2 = 0).
  { unfold Py.round. rewrite (round_half_even_eq _ 0) by (simpl; lra).
    simpl. lra. }
  assert (Hbranch : tilt_branch 0 [(1 / 1000, 0)] = [(1 / 1000, 0)]).
  { unfold tilt_branch. destruct (Req_dec_T 0 0); [reflexivity|lra]. }
  assert (Hrot : rotate_all 0 [(1 / 1000, 0)] = [(0, 0)]).
  { rewrite rotate_all_zero. unfold round2_point. simpl.
    rewrite Hround. now rewrite (round2_IZR 0). }
  split; [exact ellipse_unrotated_tiny|].
  split; [exact Hbranch|]. split; [exact Hrot|].
  rewrite Hrot, Hbranch. intros H. injection H as H1. lra.
Qed.

(** C5, amended: run with angle 0, the rotation loop of the arc and ellipse
    functions rounds every coordinate of the untranslated list to two
    decimals, and the rotation of the rectangle corners rounds every corner
    coordinate to two decimals; the result is the list of the
    [tilt_angle == 0] branch when the coordinates have at most two
    decimals. *)
Theorem tilt_zero_rounds :
  (forall pts, rotate_all 0 pts = map round2_point pts)
  /\ (forall cx cy p1 p2 p3 p4,
        rotate_corners cx cy 0 (p1, p2, p3, p4) =
        (round2_point p1, round2_point p2, round2_point p3, round2_point p4))
  /\ (forall pts,
        Forall centesimal pts -> rotate_all 0 pts = tilt_branch 0 pts)
  /\ (forall cx cy p1 p2 p3 p4,
        centesimal p1 -> centesimal p2 -> centesimal p3 -> centesimal p4 ->
        rotate_corners cx cy 0 (p1, p2, p3, p4) = (p1, p2, p3, p4)).
Proof.
  assert (Hcorners : forall cx cy p1 p2 p3 p4,
    rotate_corners cx cy 0 (p1, p2, p3, p4) =
    (round2_point p1, round2_point p2, round2_point p3, round2_point p4)).
  { intros. unfold rotate_corners. now rewrite !rotate_point_zero. }
  split; [exact rotate_all_zero|]. split; [exact Hcorners|]. split.
  - intros pts Hpts. rewrite rotate_all_zero. unfold tilt_branch.
    destruct (Req_dec_T 0 0); [|lra].
    induction Hpts as [|p pts Hp _ IH]; simpl; [reflexivity|].
    now rewrite IH, round2_point_centesimal.
  - intros cx cy p1 p2 p3 p4 H1 H2 H3 H4.
    now rewrite Hcorners, !round2_point_centesimal.
Qed.

Lemma tilt_zero_rounds_witness :
  rotate_all 0 [(IZR 25 / 100, IZR (-150) / 100)] =
  tilt_branch 0 [(IZR 25 / 100, IZR (-150) / 100)]
  /\ rotate_corners 1 1 0
       ((IZR 0 / 100, IZR 0 / 100), (IZR 200 / 100, IZR 0 / 100),
        (IZR 200 / 100, IZR 200 / 100), (IZR 0 / 100, IZR 200 / 100)) =
     ((IZR 0 / 100, IZR 0 / 100), (IZR 200 / 100, IZR 0 / 100),
      (IZR 200 / 100, IZR 200 / 100), (IZR 0 / 100, IZR 200 / 100)).
Proof.
  split.
  - apply (proj1 (proj2 (proj2 tilt_zero_rounds))).
    constructor; [|constructor]. exists 25%Z, (-150)%Z. reflexivity.
  - apply (proj2 (proj2 (proj2 tilt_zero_rounds)));
      eexists _, _; reflexivity.
Defined.

End Tilt.

(** ** Arcs *)

Section Arcs.

Local Open Scope R_scope.

Lemma range_In (a b z : Z) : In z (Py.range a b) <-> (a <= z < b)%Z.
Proof.
  unfold Py.range. rewrite in_map_iff. split.
  - intros (i & <- & Hi). apply in_seq in Hi. lia.
  - intros Hz. exists (Z.to_nat (z - a)). split; [lia|].
    apply in_seq. lia.
Qed.

Lemma range_length (a b : Z) : length (Py.range a b) = Z.to_nat (b - a).
Proof.
  unfold Py.range. now rewrite length_map, length_seq.
Qed.

Lemma range_empty (a b : Z) : (b <= a)%Z -> Py.range a b = [].
Proof.
  intros Hle. unfold Py.range.
  replace (Z.to_nat (b - a)) with 0%nat by lia. reflexivity.
Qed.

Lemma range_from_zero (n : nat) :
  Py.range 0 (Z.of_nat n) = map Z.of_nat (seq 0 n).
Proof.
  unfold Py.range. rewrite Z.sub_0_r, Nat2Z.id. apply map_ext. intros i. lia.
Qed.

Lemma arc_filled_unrotated_map (width height : R)
    (start_angle end_angle : float)
    (num_segments start_segment end_segment : Z) :
  num_segments <> 0%Z ->
  arc_segment start_angle num_segments = inr start_segment ->
  arc_segment end_angle num_segments = inr end_segment ->
  arc_filled_unrotated width height start_angle end_angle num_segments =
  inr ((0, 0) ::
       map (fun segment =>
              (width * cos (2 * 3.1415926 * IZR segment / IZR num_segments),
               height * sin (2 * 3.1415926 * IZR segment / IZR num_segments)))
           (Py.range start_segment (end_segment + 1))).
Proof.
  intros HN Hs He. unfold arc_filled_unrotated. rewrite Hs, He.
  now rewrite for_each_arc_filled_step.
Qed.

(** A segment bound is the truncation of the double
    [angle / 360 * num_segments]. *)
Lemma arc_segment_trunc (angle : float) (num_segments z : Z) :
  arc_segment angle num_segments = inr z ->
  exists n : float,
    Double.of_int num_segments = inr n
    /\ z = Py.int (Double.to_R (angle / 360 * n)%float).
Proof.
  unfold arc_segment.
  destruct (Double.of_int num_segments) as [e|n]; [discriminate|].
  intros H. exists n. split; [reflexivity|]. now apply to_int_trunc.
Qed.

Lemma arc_segment_0_128 : arc_segment 0 128 = inr 0%Z.
Proof. vm_compute. reflexivity. Qed.

Lemma arc_segment_180_128 : arc_segment 180 128 = inr 64%Z.
Proof. vm_compute. reflexivity. Qed.

Lemma arc_segment_90_128 : arc_segment 90 128 = inr 32%Z.
Proof. vm_compute. reflexivity. Qed.

Lemma arc_segment_neg_128 : arc_segment (-1) 128 = inr 0%Z.
Proof. vm_compute. reflexivity. Qed.

Lemma arc_segment_180_2 : arc_segment 180 2 = inr 1%Z.
Proof. vm_compute. reflexivity. Qed.

(** The quotient is rounded before it is truncated: 52 / 360 * 90 is 13
    in exact arithmetic and 12.999999999999998 in doubles. *)
Lemma arc_segment_52_90 :
  arc_segment 52 90 = inr 12%Z /\ arc_segment 50 90 = inr 12%Z.
Proof. split; vm_compute; reflexivity. Qed.

Lemma py_floor_example_neg : Py.floor (-1 / 360 * IZR 128) = (-1)%Z.
Proof.
  unfold Py.floor. apply Int_part_eq. lra.
Qed.

Lemma py_floor_example_neg_double :
  Py.floor (Double.to_R (-1 / 360 * 128)%float) = (-1)%Z.
Proof.
  unfold Double.to_R.
  let v := eval vm_compute in (Prim2SF (-1 / 360 * 128)%float) in
  change (Prim2SF (-1 / 360 * 128)%float) with v.
  cbv beta iota zeta.
  match goal with
  | |- context [IZR (2 ^ ?k)] =>
    let p := eval vm_compute in (2 ^ k)%Z in change (2 ^ k)%Z with p
  end.
  cbv beta iota zeta delta [Z.leb Z.compare].
  unfold Py.floor. apply Int_part_eq. lra.
Qed.

Lemma inr_length {A : Type} (a b : list A) :
  @inr exn (list A) a = inr b -> length a = length b.
Proof.
  intros H. injection H as ->. reflexivity.
Qed.

(** C3, as stated, fails twice.  For [start_angle = -1], [end_angle = 0]
    and 128 segments the start segment is 0 where the floor, of the exact
    quotient and of the double alike, is -1, and the code emits one point
    less than the floor-bounded list of the specification.  For
    [start_angle = end_angle = 180] and 2 segments the one segment is 1 in
    the code and in the specification, but the code places its point at
    the angle 3.1415926, where the sine is positive, and the specification
    at pi, where it is 0. *)
Lemma draw_arc_filled_not_floor :
  arc_segment (-1) 128 = inr 0%Z
  /\ Py.floor (-1 / 360 * IZR 128) = (-1)%Z
  /\ Py.floor (Double.to_R (-1 / 360 * 128)%float) = (-1)%Z
  /\ arc_filled_unrotated 1 1 (-1) 0 128 <>
     inr (spec_arc_filled_points 1 1 (-1) 0 128)
  /\ arc_filled_unrotated 1 1 180 180 2 =
     inr [(0, 0);
          (1 * cos (2 * 3.1415926 * IZR 1 / IZR 2),
           1 * sin (2 * 3.1415926 * IZR 1 / IZR 2))]
  /\ spec_arc_filled_points 1 1 180 180 2 =
     [(0, 0); (1 * cos (2 * PI * IZR 1 / IZR 2),
               1 * sin (2 * PI * IZR 1 / IZR 2))]
  /\ 0 < sin (2 * 3.1415926 * IZR 1 / IZR 2)
  /\ sin (2 * PI * IZR 1 / IZR 2) = 0
  /\ arc_filled_unrotated 1 1 180 180 2 <>
     inr (spec_arc_filled_points 1 1 180 180 2).
Proof.
  assert (Hcode : arc_filled_unrotated 1 1 180 180 2 =
            inr [(0, 0);
                 (1 * cos (2 * 3.1415926 * IZR 1 / IZR 2),
                  1 * sin (2 * 3.1415926 * IZR 1 / IZR 2))]).
  { rewrite (arc_filled_unrotated_map 1 1 180 180 2 1 1)
      by (lia || exact arc_segment_180_2).
    reflexivity. }
  assert (Hspec : spec_arc_filled_points 1 1 180 180 2 =
            [(0, 0); (1 * cos (2 * PI * IZR 1 / IZR 2),
                      1 * sin (2 * PI * IZR 1 / IZR 2))]).
  { unfold spec_arc_filled_points.
    replace (180 / 360 * IZR 2) with (IZR 1) by lra.
    unfold Py.floor. rewrite Int_part_IZR. reflexivity. }
  assert (Hsin : 0 < sin (2 * 3.1415926 * IZR 1 / IZR 2)).
  { pose proof literal_below_PI. apply sin_gt_0; lra. }
  assert (Hsin0 : sin (2 * PI * IZR 1 / IZR 2) = 0).
  { replace (2 * PI * IZR 1 / IZR 2) with PI by lra. apply sin_PI. }
  split; [exact arc_segment_neg_128|].
  split; [exact py_floor_example_neg|].
  split; [exact py_floor_example_neg_double|].
  split.
  { rewrite (arc_filled_unrotated_map 1 1 (-1) 0 128 0 0)
      by (lia || exact arc_segment_neg_128 || exact arc_segment_0_128).
    unfold spec_arc_filled_points. rewrite py_floor_example_neg.
    replace (Py.floor (0 / 360 * IZR 128)) with 0%Z
      by (symmetry; apply Int_part_eq; lra).
    intros H. apply inr_length in H. cbn [length] in H.
    rewrite !length_map, !range_length in H. discriminate H. }
  split; [exact Hcode|]. split; [exact Hspec|].
  split; [exact Hsin|]. split; [exact Hsin0|].
  rewrite Hcode, Hspec. intros H. injection H as _ Hy.
  rewrite Hsin0 in Hy. lra.
Qed.

(** C3, amended: with a non-zero segment count, the start and end segments
    are the doubles [start_angle / 360 * N] and [end_angle / 360 * N]
    truncated towards zero (their floor when they are not negative); the
    untranslated list is the pivot (0, 0) followed by one point
    [(width * cos theta, height * sin theta)],
    [theta = 2 * 3.1415926 * segment / N], for each integer segment from the
    start to the end segment inclusive, in increasing order; the list
    submitted is its tilt and translation, as a triangle fan; for angles 0
    and 180 and 128 segments the segments are 0..64, 65 of them. *)
Theorem draw_arc_filled_spec (center_x center_y width height : R)
    (color : Color) (start_angle end_angle : float) (tilt_angle : R)
    (num_segments start_segment end_segment : Z) (g : gl_context) :
  num_segments <> 0%Z ->
  arc_segment start_angle num_segments = inr start_segment ->
  arc_segment end_angle num_segments = inr end_segment ->
  let point segment :=
    (width * cos (2 * 3.1415926 * IZR segment / IZR num_segments),
     height * sin (2 * 3.1415926 * IZR segment / IZR num_segments)) in
  let segments := Py.range start_segment (end_segment + 1) in
  arc_filled_unrotated width height start_angle end_angle num_segments =
    inr ((0, 0) :: map point segments)
  /\ (forall segment,
        In segment segments <-> (start_segment <= segment <= end_segment)%Z)
  /\ length segments = Z.to_nat (end_segment + 1 - start_segment)
  /\ (forall i : nat, (i < length segments)%nat ->
        nth i segments 0%Z = (start_segment + Z.of_nat i)%Z)
  /\ (exists n : float,
        Double.of_int num_segments = inr n
        /\ start_segment = Py.int (Double.to_R (start_angle / 360 * n)%float)
        /\ end_segment = Py.int (Double.to_R (end_angle / 360 * n)%float)
        /\ (0 <= Double.to_R (start_angle / 360 * n)%float ->
            start_segment =
            Py.floor (Double.to_R (start_angle / 360 * n)%float))
        /\ (0 <= Double.to_R (end_angle / 360 * n)%float ->
            end_segment =
            Py.floor (Double.to_R (end_angle / 360 * n)%float)))
  /\ draw_arc_filled center_x center_y width height color start_angle
       end_angle tilt_angle num_segments g =
     _generic_draw_line_strip
       (map (fun p => (fst p + center_x, snd p + center_y))
          (tilt_branch tilt_angle ((0, 0) :: map point segments)))
       color 1 GL_TRIANGLE_FAN g
  /\ (arc_segment 0 128 = inr 0%Z
      /\ arc_segment 180 128 = inr 64%Z
      /\ Py.range 0 (64 + 1) = map Z.of_nat (seq 0 65)).
Proof.
  intros HN Hs He point segments.
  pose proof (arc_filled_unrotated_map width height start_angle end_angle
                num_segments start_segment end_segment HN Hs He) as Hun.
  split; [exact Hun|].
  split; [intros segment; unfold segments; rewrite range_In; lia|].
  split; [apply range_length|].
  split.
  { intros i Hi. unfold segments in *. rewrite range_length in Hi.
    unfold Py.range.
    rewrite (nth_indep _ 0%Z (start_segment + Z.of_nat 0)%Z)
      by (rewrite length_map, length_seq; exact Hi).
    rewrite (map_nth (fun i => (start_segment + Z.of_nat i)%Z)).
    now rewrite seq_nth. }
  split.
  { destruct (arc_segment_trunc _ _ _ Hs) as (n & Hn & Hstart).
    destruct (arc_segment_trunc _ _ _ He) as (n' & Hn' & Hend).
    rewrite Hn in Hn'. injection Hn' as <-.
    exists n. split; [exact Hn|]. split; [exact Hstart|].
    split; [exact Hend|].
    split; intros Hpos; [rewrite Hstart|rewrite Hend];
      now apply py_int_nonneg. }
  split.
  - unfold draw_arc_filled, eff_bind, eff_lift. rewrite Hun.
    now rewrite center_all_map.
  - split; [exact arc_segment_0_128|]. split; [exact arc_segment_180_128|].
    exact (range_from_zero 65).
Qed.

Lemma draw_arc_filled_spec_witness :
  arc_filled_unrotated 1 1 0 180 128 =
  inr ((0, 0) ::
       map (fun segment =>
              (1 * cos (2 * 3.1415926 * IZR segment / IZR 128),
               1 * sin (2 * 3.1415926 * IZR segment / IZR 128)))
           (Py.range 0 (64 + 1))).
Proof.
  apply (draw_arc_filled_spec 0 0 1 1 [0; 0; 0]%Z 0 180 0 128 0 64 []);
    [lia|vm_compute; reflexivity|vm_compute; reflexivity].
Defined.

(** C10: when the end segment is smaller than the start segment,
    [draw_arc_filled] raises nothing on a 3- or 4-channel colour: the
    segment loop adds no point, and the single point
    [(center_x, center_y)] is submitted as a triangle fan. *)
Theorem draw_arc_filled_empty_range (center_x center_y width height : R)
    (color color4 : Color) (start_angle end_angle : float) (tilt_angle : R)
    (num_segments start_segment end_segment : Z) (g : gl_context) :
  arc_segment start_angle num_segments = inr start_segment ->
  arc_segment end_angle num_segments = inr end_segment ->
  (end_segment < start_segment)%Z ->
  arc_filled_unrotated width height start_angle end_angle num_segments =
    inr [(0, 0)]
  /\ draw_arc_filled center_x center_y width height color start_angle
       end_angle tilt_angle num_segments g =
     _generic_draw_line_strip [(center_x, center_y)] color 1 GL_TRIANGLE_FAN g
  /\ (get_four_byte_color color = inr color4 ->
      draw_arc_filled center_x center_y width height color start_angle
        end_angle tilt_angle num_segments g =
      (inr tt,
       g ++ [DrawCall GL_TRIANGLE_FAN [(center_x, center_y)] color4 1])).
Proof.
  intros Hs He Hlt.
  assert (Hun : arc_filled_unrotated width height start_angle end_angle
                  num_segments = inr [(0, 0)]).
  { unfold arc_filled_unrotated. rewrite Hs, He.
    rewrite range_empty by lia. reflexivity. }
  assert (Hdraw : draw_arc_filled center_x center_y width height color
                    start_angle end_angle tilt_angle num_segments g =
                  _generic_draw_line_strip [(center_x, center_y)] color 1
                    GL_TRIANGLE_FAN g).
  { unfold draw_arc_filled, eff_bind, eff_lift. rewrite Hun.
    rewrite center_all_map. unfold tilt_branch.
    assert (Hpivot : forall x y : R, (0 + x, 0 + y) = (x, y))
      by (intros; f_equal; lra).
    destruct (Req_dec_T tilt_angle 0).
    - simpl. now rewrite Hpivot.
    - rewrite rotate_all_map. simpl. unfold rotate_point.
      replace ((0 - 0) * cos (Py.radians tilt_angle)
               - (0 - 0) * sin (Py.radians tilt_angle) + 0) with (IZR 0)
        by lra.
      replace ((0 - 0) * sin (Py.radians tilt_angle)
               + (0 - 0) * cos (Py.radians tilt_angle) + 0) with (IZR 0)
        by lra.
      rewrite round2_IZR. simpl. now rewrite Hpivot. }
  split; [exact Hun|]. split; [exact Hdraw|].
  intros Hcolor. rewrite Hdraw.
  unfold _generic_draw_line_strip, eff_bind, eff_lift. now rewrite Hcolor.
Qed.

Lemma draw_arc_filled_empty_range_witness :
  draw_arc_filled 3 4 1 1 [255; 0; 0]%Z 90 0 45 128 [] =
  (inr tt, [DrawCall GL_TRIANGLE_FAN [(3, 4)] [255; 0; 0; 255]%Z 1]).
Proof.
  apply (proj2 (proj2
    (draw_arc_filled_empty_range 3 4 1 1 [255; 0; 0]%Z [255; 0; 0; 255]%Z
       90 0 45 128 32 0 []
       ltac:(vm_compute; reflexivity) ltac:(vm_compute; reflexivity)
       ltac:(lia)))).
  reflexivity.
Defined.

End Arcs.

(** ** Texture construction *)

Section TextureInit.

Local Open Scope Z_scope.

Lemma Texture_init_cases (texture_id width height : Z) (file_name : pyval)
    (self : gmap string pyval) :
  Texture_init texture_id width height file_name self =
  if height <? 0 then
    (inl (ValueError
       "Height entered is less than zero. Height must be a positive float."),
     self)
  else if width <? 0 then
    (inl (ValueError
       "Width entered is less than zero. Width must be a positive float."),
     self)
  else
    (inr tt,
     <["_sprite_list"%string := VNone]>
       (<["_sprite"%string := VNone]>
          (<["texture_name"%string := file_name]>
             (<["height"%string := VInt height]>
                (<["width"%string := VInt width]>
                   (<["texture_id"%string := VInt texture_id]> self)))))).
Proof.
  unfold Texture_init, eff_bind, eff_raise, eff_ret, eff_modify.
  destruct (height <? 0); [reflexivity|].
  destruct (width <? 0); reflexivity.
Qed.

Lemma Texture_cases (texture_id width height : Z) (file_name : pyval)
    (w : world) :
  Texture texture_id width height file_name w =
  if height <? 0 then
    (inl (ValueError
       "Height entered is less than zero. Height must be a positive float."),
     w)
  else if width <? 0 then
    (inl (ValueError
       "Width entered is less than zero. Width must be a positive float."),
     w)
  else
    (inr (length (heap w)),
     World (gl_textures w)
       (heap w ++ [texture_dict texture_id width height file_name])
       (texture_cache w)).
Proof.
  unfold Texture. rewrite Texture_init_cases.
  destruct (height <? 0); [reflexivity|].
  destruct (width <? 0); reflexivity.
Qed.

(** C4, as stated, fails: a [Texture] of width 0 and height 0 is
    constructed. *)
Lemma Texture_zero_size_accepted :
  fst (Texture_init 1 0 0 (VStr "a.png") ∅) = inr tt
  /\ Texture 1 0 0 (VStr "a.png") (World 1 [] ∅) =
     (inr 0%nat, World 1 [texture_dict 1 0 0 (VStr "a.png")] ∅).
Proof.
  split.
  - now rewrite Texture_init_cases.
  - now rewrite Texture_cases.
Qed.

(** C4, amended: constructing a [Texture] raises [ValueError] exactly when
    the width or the height is negative (zero is accepted); when it raises,
    no attribute of the object has been set and no object is added to the
    heap; otherwise all six attributes are set. *)
Theorem Texture_init_validation (texture_id width height : Z)
    (file_name : pyval) (self : gmap string pyval) (w : world) :
  (width < 0 \/ height < 0 ->
   exists msg,
     Texture_init texture_id width height file_name self =
       (inl (ValueError msg), self)
     /\ Texture texture_id width height file_name w =
        (inl (ValueError msg), w))
  /\ (0 <= width -> 0 <= height ->
      Texture_init texture_id width height file_name ∅ =
        (inr tt, texture_dict texture_id width height file_name)
      /\ Texture texture_id width height file_name w =
         (inr (length (heap w)),
          World (gl_textures w)
            (heap w ++ [texture_dict texture_id width height file_name])
            (texture_cache w))).
Proof.
  rewrite Texture_cases, !Texture_init_cases. split.
  - intros Hneg. destruct (Z.ltb_spec height 0).
    + eexists. split; reflexivity.
    + destruct (Z.ltb_spec width 0); [|lia].
      eexists. split; reflexivity.
  - intros Hw Hh.
    destruct (Z.ltb_spec height 0); [lia|].
    destruct (Z.ltb_spec width 0); [lia|].
    split; reflexivity.
Qed.

Lemma Texture_init_validation_witness :
  (exists msg,
     Texture_init 0 10 (-10) (VStr "a.png") ∅ = (inl (ValueError msg), ∅)
     /\ Texture 0 10 (-10) (VStr "a.png") (World 0 [] ∅) =
        (inl (ValueError msg), World 0 [] ∅))
  /\ Texture_init 0 10 10 (VStr "a.png") ∅ =
     (inr tt, texture_dict 0 10 10 (VStr "a.png")).
Proof.
  split.
  - apply (proj1 (Texture_init_validation 0 10 (-10) (VStr "a.png") ∅
                    (World 0 [] ∅))).
    right. lia.
  - apply (proj2 (Texture_init_validation 0 10 10 (VStr "a.png") ∅
                    (World 0 [] ∅))); lia.
Defined.

End TextureInit.

(** ** Loading textures *)

Section LoadTextures.

Local Open Scope Z_scope.

Lemma texture_dict_width (texture_id width height : Z) (file_name : pyval) :
  texture_dict texture_id width height file_name !! "width"%string =
  Some (VInt width).
Proof.
  unfold texture_dict. by simplify_map_eq.
Qed.

Lemma texture_dict_height (texture_id width height : Z) (file_name : pyval) :
  texture_dict texture_id width height file_name !! "height"%string =
  Some (VInt height).
Proof.
  unfold texture_dict. by simplify_map_eq.
Qed.

Lemma check_crop_cases {St} (x y width height sw sh : Z) (s : St) :
  check_crop x y width height sw sh s =
  if (x >? sw) || (y >? sh) || (x + width >? sw) || (y + height >? sh)
  then (fst (check_crop x y width height sw sh s), s)
  else (inr tt, s).
Proof.
  unfold check_crop, eff_raise, eff_ret.
  destruct (x >? sw); [reflexivity|].
  destruct (y >? sh); [reflexivity|].
  destruct (x + width >? sw); [reflexivity|].
  destruct (y + height >? sh); reflexivity.
Qed.

Lemma check_crop_raises {St} (x y width height sw sh : Z) (s : St) :
  (x >? sw) || (y >? sh) || (x + width >? sw) || (y + height >? sh) = true ->
  exists msg, check_crop x y width height sw sh s = (inl (ValueError msg), s).
Proof.
  unfold check_crop, eff_raise, eff_ret. intros H.
  destruct (x >? sw); [eexists; reflexivity|].
  destruct (y >? sh); [eexists; reflexivity|].
  destruct (x + width >? sw); [eexists; reflexivity|].
  destruct (y + height >? sh); [eexists; reflexivity|discriminate].
Qed.

(** One iteration of the loop of [load_textures], when it returns. *)
Lemma load_textures_step_inv (source_image : image) (mirrored flipped : bool)
    (scale : Z) (acc : list nat) (x y width height : Z) (w w' : world)
    (ts : list nat) :
  load_textures_step source_image mirrored flipped scale acc
    (x, y, width, height) w = (inr ts, w') ->
  ts = acc ++ [length (heap w)]
  /\ w' = World (gl_textures w + 1)
            (heap w ++ [texture_dict (gl_textures w + 1) width height
                          (VLocation x y width height)])
            (texture_cache w).
Proof.
  destruct source_image as [sw sh].
  unfold load_textures_step, eff_bind.
  destruct (width <=? 0); [discriminate|]. unfold eff_ret at 1.
  rewrite check_crop_cases.
  destruct ((x >? sw) || (y >? sh) || (x + width >? sw) || (y + height >? sh))
    eqn:Hbad.
  - destruct (check_crop_raises x y width height sw sh w Hbad) as [msg ->].
    discriminate.
  - destruct (if flipped then _ else _) as [iw ih].
    unfold glGenTextures. rewrite Texture_cases. simpl.
    destruct (height <? 0); [discriminate|].
    destruct (width <? 0); [discriminate|].
    unfold eff_ret. intros H. injection H as <- <-. split; reflexivity.
Qed.

(** One iteration of the loop on an accepted crop rectangle. *)
Lemma load_textures_step_ok (source_image : image) (mirrored flipped : bool)
    (scale : Z) (acc : list nat) (loc : Z * Z * Z * Z) (w : world) :
  location_ok source_image loc ->
  exists ts w',
    load_textures_step source_image mirrored flipped scale acc loc w =
    (inr ts, w').
Proof.
  destruct source_image as [sw sh]. destruct loc as [[[x y] width] height].
  intros (Hw & Hx & Hy & Hxw & Hyh & Hh).
  unfold load_textures_step, eff_bind.
  destruct (Z.leb_spec width 0); [lia|]. unfold eff_ret at 1.
  rewrite check_crop_cases.
  replace ((x >? sw) || (y >? sh) || (x + width >? sw) || (y + height >? sh))
    with false
    by (symmetry; rewrite !orb_false_iff, !Z.gtb_ltb, !Z.ltb_ge; lia).
  destruct (if flipped then _ else _) as [iw ih].
  unfold glGenTextures. rewrite Texture_cases. simpl.
  destruct (Z.ltb_spec height 0); [lia|].
  destruct (Z.ltb_spec width 0); [lia|].
  eexists _, _. reflexivity.
Qed.

Lemma load_textures_step_flags (source_image : image)
    (mirrored flipped mirrored' flipped' : bool) (scale scale' : Z)
    (acc : list nat) (loc : Z * Z * Z * Z) (w : world) :
  load_textures_step source_image mirrored flipped scale acc loc w =
  load_textures_step source_image mirrored' flipped' scale' acc loc w.
Proof.
  destruct source_image as [sw sh]. destruct loc as [[[x y] width] height].
  unfold load_textures_step, PIL_mirror, PIL_flip.
  destruct mirrored, flipped, mirrored', flipped'; reflexivity.
Qed.

Lemma for_each_eff_ext {St A S : Type} (f g : S -> A -> Eff St S)
    (l : list A) (s : S) (st : St) :
  (forall s a st, f s a st = g s a st) ->
  for_each_eff f l s st = for_each_eff g l s st.
Proof.
  intros Hfg. revert s st. induction l as [|a l IH]; intros s st; simpl.
  - reflexivity.
  - unfold eff_bind. rewrite Hfg. destruct (g s a st) as [[e|s'] st'].
    + reflexivity.
    + apply IH.
Qed.

(** The loop of [load_textures], when it returns: the references are the
    next free heap slots, and each new object reports the size of its crop
    rectangle. *)
Lemma load_textures_loop_inv (source_image : image) (mirrored flipped : bool)
    (scale : Z) (locs : list (Z * Z * Z * Z)) (acc : list nat) (w w' : world)
    (ts : list nat) :
  for_each_eff (load_textures_step source_image mirrored flipped scale)
    locs acc w = (inr ts, w') ->
  exists objs,
    ts = acc ++ seq (length (heap w)) (length locs)
    /\ heap w' = heap w ++ objs
    /\ map (fun self => (self !! "width"%string, self !! "height"%string)) objs =
       map location_size locs.
Proof.
  revert acc w ts w'.
  induction locs as [|loc locs IH]; intros acc w ts w'; simpl.
  - unfold eff_ret. intros H. injection H as <- <-.
    exists []. now rewrite !app_nil_r.
  - unfold eff_bind.
    destruct (load_textures_step source_image mirrored flipped scale acc loc w)
      as [[e|acc1] w1] eqn:Hstep; [discriminate|].
    destruct loc as [[[x y] width] height].
    apply load_textures_step_inv in Hstep as [-> ->].
    intros Hrest. apply IH in Hrest as (objs & -> & Hheap & Hsizes).
    cbn [heap] in *. rewrite length_app. simpl.
    eexists (_ :: objs). split; [|split].
    + rewrite <- app_assoc. simpl. do 3 f_equal. lia.
    + rewrite Hheap, <- app_assoc. reflexivity.
    + simpl. now rewrite texture_dict_width, texture_dict_height, Hsizes.
Qed.

Lemma load_textures_loop_ok (source_image : image) (mirrored flipped : bool)
    (scale : Z) (locs : list (Z * Z * Z * Z)) (acc : list nat) (w : world) :
  Forall (location_ok source_image) locs ->
  exists ts w',
    for_each_eff (load_textures_step source_image mirrored flipped scale)
      locs acc w = (inr ts, w').
Proof.
  intros Hlocs. revert acc w.
  induction Hlocs as [|loc locs Hloc _ IH]; intros acc w; simpl.
  - eexists _, _. reflexivity.
  - unfold eff_bind.
    destruct (load_textures_step_ok source_image mirrored flipped scale acc
                loc w Hloc) as (ts1 & w1 & ->).
    apply IH.
Qed.

Lemma heap_read_back (w' : world) (pre objs : list (gmap string pyval)) :
  heap w' = pre ++ objs ->
  map (fun t => (texture_attr w' t "width", texture_attr w' t "height"))
    (seq (length pre) (length objs)) =
  map (fun self => (self !! "width"%string, self !! "height"%string)) objs.
Proof.
  revert pre. induction objs as [|self objs IH]; intros pre Hheap; simpl.
  - reflexivity.
  - f_equal.
    + unfold texture_attr. rewrite Hheap.
      now rewrite (list_lookup_middle pre objs self (length pre) eq_refl).
    + specialize (IH (pre ++ [self])).
      rewrite length_app, Nat.add_1_r in IH. apply IH.
      now rewrite <- app_assoc.
Qed.

Lemma load_texture_miss (images : string -> option image) (file_name : string)
    (x y width height : Z) (mirrored flipped : bool) (scale : Z) (w : world)
    (source_image : image) :
  texture_cache w !!
    cache_name_of file_name x y width height scale flipped mirrored = None ->
  images file_name = Some source_image ->
  location_ok source_image (x, y, width, height) ->
  0 <= scale ->
  load_texture images file_name x y width height mirrored flipped scale w =
  (inr (length (heap w)),
   World (gl_textures w + 1)
     (heap w ++ [texture_dict (gl_textures w + 1) (width * scale)
                   (height * scale) (VStr file_name)])
     (<[cache_name_of file_name x y width height scale flipped mirrored :=
          length (heap w)]> (texture_cache w))).
Proof.
  destruct source_image as [sw sh].
  intros Hmiss Himg (Hw & Hx & Hy & Hxw & Hyh & Hh) Hscale.
  unfold load_texture, eff_bind, eff_get. rewrite Hmiss.
  unfold PIL_open. rewrite Himg. unfold eff_ret at 1.
  replace (width =? 0) with false by (symmetry; apply Z.eqb_neq; lia).
  rewrite !andb_false_r, andb_false_l. cbn [negb].
  rewrite check_crop_cases.
  replace ((x >? sw) || (y >? sh) || (x + width >? sw) || (y + height >? sh))
    with false
    by (symmetry; rewrite !orb_false_iff, !Z.gtb_ltb, !Z.ltb_ge; lia).
  unfold eff_ret at 1, PIL_crop.
  replace (Z.max 0 (x + width - x)) with width by lia.
  replace (Z.max 0 (y + height - y)) with height by lia.
  assert (Hflags :
    (if flipped then PIL_flip (if mirrored then PIL_mirror (width, height)
                               else (width, height))
     else if mirrored then PIL_mirror (width, height) else (width, height)) =
    (width, height)) by (destruct flipped, mirrored; reflexivity).
  rewrite Hflags. unfold glGenTextures. rewrite Texture_cases.
  cbn [heap gl_textures texture_cache].
  destruct (Z.ltb_spec (height * scale) 0); [nia|].
  destruct (Z.ltb_spec (width * scale) 0); [nia|].
  reflexivity.
Qed.

(** C9: every [Texture] returned by [load_textures] reports the width and
    height of its crop rectangle; [mirrored], [flipped] and [scale] change
    nothing of what [load_textures] returns; it returns on every list of
    crop rectangles that lie inside the image; [load_texture], on the same
    kind of rectangle, reports the width and height multiplied by
    [scale]. *)
Theorem load_textures_dimensions (images : string -> option image)
    (file_name : string) (image_location_list : list (Z * Z * Z * Z))
    (mirrored flipped : bool) (scale : Z) (w : world) :
  (forall ts w',
     load_textures images file_name image_location_list mirrored flipped
       scale w = (inr ts, w') ->
     map (fun t => (texture_attr w' t "width", texture_attr w' t "height")) ts =
     map location_size image_location_list)
  /\ (forall mirrored' flipped' scale',
        load_textures images file_name image_location_list mirrored' flipped'
          scale' w =
        load_textures images file_name image_location_list mirrored flipped
          scale w)
  /\ (forall source_image,
        images file_name = Some source_image ->
        Forall (location_ok source_image) image_location_list ->
        exists ts w',
          load_textures images file_name image_location_list mirrored flipped
            scale w = (inr ts, w'))
  /\ (forall source_image x y width height,
        images file_name = Some source_image ->
        location_ok source_image (x, y, width, height) ->
        0 <= scale ->
        texture_cache w !!
          cache_name_of file_name x y width height scale flipped mirrored =
          None ->
        exists t w',
          load_texture images file_name x y width height mirrored flipped
            scale w = (inr t, w')
          /\ texture_attr w' t "width" = Some (VInt (width * scale))
          /\ texture_attr w' t "height" = Some (VInt (height * scale))).
Proof.
  split; [|split; [|split]].
  - intros ts w'. unfold load_textures, eff_bind, PIL_open.
    destruct (images file_name) as [source_image|]; [|discriminate].
    unfold eff_ret at 1. intros Hloop.
    apply load_textures_loop_inv in Hloop as (objs & -> & Hheap & Hsizes).
    rewrite <- Hsizes. simpl.
    replace (length image_location_list) with (length objs).
    + now apply heap_read_back.
    + apply (f_equal (@length _)) in Hsizes.
      now rewrite !length_map in Hsizes.
  - intros mirrored' flipped' scale'. unfold load_textures, eff_bind.
    destruct (PIL_open images file_name w) as [[e|source_image] w1];
      [reflexivity|].
    apply for_each_eff_ext. intros. apply load_textures_step_flags.
  - intros source_image Himg Hlocs. unfold load_textures, eff_bind, PIL_open.
    rewrite Himg. unfold eff_ret at 1. now apply load_textures_loop_ok.
  - intros source_image x y width height Himg Hloc Hscale Hmiss.
    eexists _, _. split.
    + now apply (load_texture_miss images file_name x y width height mirrored
                   flipped scale w source_image).
    + unfold texture_attr. cbn [heap].
      rewrite (list_lookup_middle (heap w) [] _ (length (heap w)) eq_refl).
      split; [apply texture_dict_width|apply texture_dict_height].
Qed.

Lemma load_textures_dimensions_witness :
  exists ts w',
    load_textures example_images "a.png" [(0, 0, 10, 20); (5, 5, 30, 40)]
      true false 3 (World 0 [] ∅) = (inr ts, w')
    /\ map (fun t => (texture_attr w' t "width", texture_attr w' t "height"))
         ts =
       [(Some (VInt 10), Some (VInt 20)); (Some (VInt 30), Some (VInt 40))].
Proof.
  pose proof (load_textures_dimensions example_images "a.png"
                [(0, 0, 10, 20); (5, 5, 30, 40)] true false 3
                (World 0 [] ∅)) as (Hdims & _ & Hok & _).
  destruct (Hok (100, 100) eq_refl) as (ts & w' & Hload).
  - repeat constructor; simpl; lia.
  - exists ts, w'. split; [exact Hload|]. exact (Hdims ts w' Hload).
Defined.

(** ** The texture cache *)

Lemma load_texture_hit (images : string -> option image) (file_name : string)
    (x y width height : Z) (mirrored flipped : bool) (scale : Z) (w : world)
    (t : nat) :
  texture_cache w !!
    cache_name_of file_name x y width height scale flipped mirrored = Some t ->
  load_texture images file_name x y width height mirrored flipped scale w =
  (inr t, w).
Proof.
  intros Hhit. unfold load_texture, eff_bind, eff_get. now rewrite Hhit.
Qed.

(** A call that returns leaves its reference in the cache under its key. *)
Lemma load_texture_caches (images : string -> option image)
    (file_name : string) (x y width height : Z) (mirrored flipped : bool)
    (scale : Z) (w w1 : world) (t : nat) :
  load_texture images file_name x y width height mirrored flipped scale w =
    (inr t, w1) ->
  texture_cache w1 !!
    cache_name_of file_name x y width height scale flipped mirrored = Some t.
Proof.
  unfold load_texture, eff_bind, eff_get.
  destruct (texture_cache w !! _) as [t0|] eqn:Hcache.
  - unfold eff_ret. intros H. injection H as <- <-. exact Hcache.
  - unfold PIL_open.
    destruct (images file_name) as [[sw sh]|]; [|discriminate].
    unfold eff_ret at 1.
    destruct (negb _).
    + rewrite check_crop_cases.
      destruct ((x >? sw) || (y >? sh) || (x + width >? sw)
                || (y + height >? sh)) eqn:Hbad.
      * destruct (check_crop_raises x y width height sw sh w Hbad)
          as [msg ->].
        discriminate.
      * unfold eff_ret at 1.
        destruct (if flipped then _ else _) as [iw ih].
        unfold glGenTextures. rewrite Texture_cases.
        cbn [heap gl_textures texture_cache].
        destruct (ih * scale <? 0); [discriminate|].
        destruct (iw * scale <? 0); [discriminate|].
        unfold eff_modify, eff_ret. intros H. injection H as <- <-.
        cbn [texture_cache]. apply lookup_insert_eq.
    + unfold eff_ret at 1.
      destruct (if flipped then _ else _) as [iw ih].
      unfold glGenTextures. rewrite Texture_cases.
      cbn [heap gl_textures texture_cache].
      destruct (ih * scale <? 0); [discriminate|].
      destruct (iw * scale <? 0); [discriminate|].
      unfold eff_modify, eff_ret. intros H. injection H as <- <-.
      cbn [texture_cache]. apply lookup_insert_eq.
Qed.

(** Two calls with the same arguments return the same [Texture] object. *)
Lemma load_texture_twice (images : string -> option image)
    (file_name : string) (x y width height : Z) (mirrored flipped : bool)
    (scale : Z) (w w1 : world) (t : nat) :
  load_texture images file_name x y width height mirrored flipped scale w =
    (inr t, w1) ->
  load_texture images file_name x y width height mirrored flipped scale w1 =
    (inr t, w1).
Proof.
  intros Hfirst. apply load_texture_hit.
  exact (load_texture_caches _ _ _ _ _ _ _ _ _ _ _ _ Hfirst).
Qed.

Lemma string_app_length (a b : string) :
  String.length (a +:+ b) = (String.length a + String.length b)%nat.
Proof.
  induction a as [|c a IH]; [reflexivity|].
  change (String c a +:+ b) with (String c (a +:+ b)). simpl. now rewrite IH.
Qed.

Lemma string_app_inv_tail (s1 s2 t : string) :
  s1 +:+ t = s2 +:+ t -> s1 = s2.
Proof.
  revert s2. induction s1 as [|c1 s1 IH]; intros [|c2 s2] H.
  - reflexivity.
  - apply (f_equal String.length) in H.
    rewrite !string_app_length in H. simpl in H. lia.
  - apply (f_equal String.length) in H.
    rewrite !string_app_length in H. simpl in H. lia.
  - change (String c1 (s1 +:+ t) = String c2 (s2 +:+ t)) in H.
    injection H as -> H. f_equal. now apply IH.
Qed.

(** Two calls that differ in [scale] alone use distinct cache keys. *)
Lemma cache_name_scale_distinct (file_name : string) (x y width height : Z)
    (scale scale' : Z) (flipped mirrored : bool) :
  scale <> scale' ->
  cache_name_of file_name x y width height scale flipped mirrored <>
  cache_name_of file_name x y width height scale' flipped mirrored.
Proof.
  intros Hne Heq. apply Hne. unfold cache_name_of in Heq.
  do 5 apply String.app_inj in Heq.
  apply string_app_inv_tail in Heq.
  now apply pretty_Z_inj in Heq.
Qed.

(** C2, the defect: the cache key concatenates its fields with no
    separator, so the crop rectangles (1, 2, 34, 5) and (1, 23, 4, 5) of one
    file share the key ["a.png123451FalseFalse"]; the second call returns the
    [Texture] of the first (width 34, not 4) and creates nothing. *)
Theorem load_texture_key_collision :
  let w0 := World 0 [] ∅ in
  let r1 := load_texture example_images "a.png" 1 2 34 5 false false 1 w0 in
  let r2 :=
    load_texture example_images "a.png" 1 23 4 5 false false 1 (snd r1) in
  (1, 2, 34, 5) <> (1, 23, 4, 5)
  /\ cache_name_of "a.png" 1 2 34 5 1 false false =
     "a.png123451FalseFalse"%string
  /\ cache_name_of "a.png" 1 23 4 5 1 false false =
     "a.png123451FalseFalse"%string
  /\ fst r1 = inr 0%nat
  /\ fst r2 = inr 0%nat
  /\ snd r2 = snd r1
  /\ length (heap (snd r2)) = 1%nat
  /\ texture_attr (snd r2) 0 "width" = Some (VInt 34).
Proof.
  cbv zeta. split; [discriminate|].
  split; [vm_compute; reflexivity|]. split; [vm_compute; reflexivity|].
  assert (Hfirst :
    load_texture example_images "a.png" 1 2 34 5 false false 1
      (World 0 [] ∅) =
    (inr 0%nat,
     World 1 [texture_dict 1 34 5 (VStr "a.png")]
       (<["a.png123451FalseFalse"%string := 0%nat]> ∅))).
  { rewrite (load_texture_miss example_images "a.png" 1 2 34 5 false false 1
               (World 0 [] ∅) (100, 100));
      [reflexivity|reflexivity|reflexivity|simpl; lia|lia]. }
  rewrite Hfirst. cbn [fst snd].
  rewrite (load_texture_hit example_images "a.png" 1 23 4 5 false false 1 _ 0%nat)
    by (vm_compute; reflexivity).
  cbn [fst snd heap length]. repeat split.
Qed.

End LoadTextures.

(** * Further properties *)

(** ** Colour conversions *)

Section FloatColors.

Local Open Scope R_scope.

Lemma get_four_byte_color_length (color c4 : Color) :
  get_four_byte_color color = inr c4 -> length c4 = 4%nat.
Proof.
  unfold get_four_byte_color.
  destruct (Nat.eqb_spec (length color) 4) as [H4|_].
  - intros H. injection H as <-. exact H4.
  - destruct (length color =? 3)%nat; [|discriminate].
    intros H. injection H as <-. reflexivity.
Qed.

(** X1: [get_four_float_color] is [get_four_byte_color] followed by the
    division of the four channels by 255: it raises on the same colours,
    a 3-channel colour gets alpha 1, and channels between 0 and 255 give
    floats between 0 and 1. *)
Theorem get_four_float_color_scales (color : Color) :
  (forall c4,
     get_four_byte_color color = inr c4 ->
     get_four_float_color color =
     inr (IZR (nth 0 c4 0%Z) / 255, IZR (nth 1 c4 0%Z) / 255,
          IZR (nth 2 c4 0%Z) / 255, IZR (nth 3 c4 0%Z) / 255))
  /\ (forall e,
        get_four_byte_color color = inl e ->
        get_four_float_color color = inl e)
  /\ (length color = 3%nat ->
      exists r g b, get_four_float_color color = inr (r, g, b, 1))
  /\ (Forall (fun c => (0 <= c <= 255)%Z) color ->
      forall r g b a,
        get_four_float_color color = inr (r, g, b, a) ->
        (0 <= r <= 1) /\ (0 <= g <= 1) /\ (0 <= b <= 1) /\ (0 <= a <= 1)).
Proof.
  assert (Hunit : forall c : Z, (0 <= c <= 255)%Z -> 0 <= IZR c / 255 <= 1).
  { intros c [Hlo Hhi]. apply IZR_le in Hlo, Hhi. lra. }
  unfold get_four_byte_color, get_four_float_color.
  split; [|split; [|split]].
  - intros c4. destruct (length color =? 4)%nat.
    + intros H. injection H as <-. reflexivity.
    + destruct (length color =? 3)%nat; [|discriminate].
      intros H. injection H as <-. simpl. do 2 f_equal. lra.
  - intros e. destruct (length color =? 4)%nat; [discriminate|].
    destruct (length color =? 3)%nat; [discriminate|].
    intros H. injection H as <-. reflexivity.
  - intros ->. simpl. eexists _, _, _. reflexivity.
  - intros Hbytes r g b a.
    assert (Hnth : forall i, (i < length color)%nat ->
                     0 <= IZR (nth i color 0%Z) / 255 <= 1).
    { intros i Hi. apply Hunit.
      rewrite Forall_forall in Hbytes. apply Hbytes.
      apply list_elem_of_In. now apply nth_In. }
    destruct (Nat.eqb_spec (length color) 4) as [H4|_].
    + intros H. injection H as <- <- <- <-.
      repeat split; apply Hnth; lia.
    + destruct (Nat.eqb_spec (length color) 3) as [H3|_]; [|discriminate].
      intros H. injection H as <- <- <- <-.
      repeat split; try (apply Hnth; lia); lra.
Qed.

Lemma get_four_float_color_scales_witness :
  get_four_float_color [255; 0; 51]%Z =
  inr (IZR 255 / 255, IZR 0 / 255, IZR 51 / 255, IZR 255 / 255)
  /\ get_four_float_color [1; 2]%Z =
     inl (ValueError "This isn't a 3 or 4 byte color").
Proof.
  split.
  - apply (proj1 (get_four_float_color_scales [255; 0; 51]%Z)
             [255; 0; 51; 255]%Z).
    reflexivity.
  - apply (proj1 (proj2 (get_four_float_color_scales [1; 2]%Z))). reflexivity.
Defined.

(** X2: [make_transparent_color] raises [IndexError] on fewer than three
    channels; otherwise it returns the first three channels followed by the
    alpha given, a colour that [get_four_byte_color] returns unchanged; on a
    3- or 4-channel colour this is the 4-byte colour with its alpha
    replaced. *)
Theorem make_transparent_color_spec (color : Color) (transparency : Z) :
  ((length color < 3)%nat ->
   make_transparent_color color transparency = inl IndexError)
  /\ ((3 <= length color)%nat ->
      exists c0 c1 c2 rest,
        color = c0 :: c1 :: c2 :: rest
        /\ make_transparent_color color transparency =
           inr [c0; c1; c2; transparency]
        /\ get_four_byte_color [c0; c1; c2; transparency] =
           inr [c0; c1; c2; transparency])
  /\ (forall c4,
        get_four_byte_color color = inr c4 ->
        make_transparent_color color transparency =
        inr (firstn 3 c4 ++ [transparency])).
Proof.
  unfold make_transparent_color, getitem. split; [|split].
  - intros Hlen. destruct color as [|c0 [|c1 [|c2 rest]]]; simpl in *;
      try reflexivity; lia.
  - intros Hlen. destruct color as [|c0 [|c1 [|c2 rest]]]; simpl in Hlen;
      try lia.
    exists c0, c1, c2, rest. repeat split.
  - intros c4. unfold get_four_byte_color.
    destruct color as [|c0 [|c1 [|c2 [|c3 [|c5 rest]]]]]; simpl;
      try discriminate; intros H; injection H as <-; reflexivity.
Qed.

Lemma make_transparent_color_spec_witness :
  make_transparent_color [1; 2]%Z 127 = inl IndexError
  /\ make_transparent_color [255; 0; 0; 255]%Z 127 =
     inr [255; 0; 0; 127]%Z.
Proof.
  split.
  - apply (proj1 (make_transparent_color_spec [1; 2]%Z 127)). simpl. lia.
  - apply (proj2 (proj2 (make_transparent_color_spec [255; 0; 0; 255]%Z 127))
             [255; 0; 0; 255]%Z).
    reflexivity.
Defined.

End FloatColors.

(** ** Every drawing is one draw call or none *)

Section Submission.

Local Open Scope R_scope.

Lemma generic_draws_once (pts : list Point) (color : Color) (lw : R)
    (mode : gl_mode) :
  draws_once_or_nothing (_generic_draw_line_strip pts color lw mode).
Proof.
  intros g. unfold _generic_draw_line_strip, eff_bind, eff_lift, render,
    eff_modify.
  destruct (get_four_byte_color color) as [e|c4] eqn:Hcolor.
  - right. eexists. reflexivity.
  - left. eexists. split; [reflexivity|].
    simpl. exact (get_four_byte_color_length _ _ Hcolor).
Qed.

Lemma lift_draws_once {A : Type} (r : exn + A) (k : A -> Draw unit) :
  (forall a, draws_once_or_nothing (k a)) ->
  draws_once_or_nothing (eff_bind (eff_lift r) k).
Proof.
  intros Hk g. unfold eff_bind, eff_lift. destruct r as [e|a].
  - right. eexists. reflexivity.
  - apply Hk.
Qed.

Lemma rectangle_filled_draws_once (cx cy w h : R) (color : Color) (tilt : R) :
  draws_once_or_nothing (draw_rectangle_filled cx cy w h color tilt).
Proof.
  unfold draw_rectangle_filled.
  destruct (rectangle_tilted cx cy w h tilt) as [[[p1 p2] p3] p4].
  apply generic_draws_once.
Qed.

Lemma rectangle_outline_draws_once (cx cy w h : R) (color : Color)
    (bw tilt : R) :
  draws_once_or_nothing (draw_rectangle_outline cx cy w h color bw tilt).
Proof.
  unfold draw_rectangle_outline.
  destruct (rectangle_tilted cx cy w h tilt) as [[[p1 p2] p3] p4].
  apply generic_draws_once.
Qed.

Lemma arc_filled_draws_once (cx cy w h : R) (color : Color) (s e : float)
    (tilt : R) (n : Z) :
  draws_once_or_nothing (draw_arc_filled cx cy w h color s e tilt n).
Proof.
  unfold draw_arc_filled. apply lift_draws_once.
  intros pts. apply generic_draws_once.
Qed.

Lemma arc_outline_draws_once (cx cy w h : R) (color : Color)
    (s e : float) (bw tilt : R) (n : Z) :
  draws_once_or_nothing (draw_arc_outline cx cy w h color s e bw tilt n).
Proof.
  unfold draw_arc_outline. apply lift_draws_once.
  intros pts. apply generic_draws_once.
Qed.

Lemma ellipse_filled_draws_once (cx cy w h : R) (color : Color) (tilt : R)
    (n : Z) :
  draws_once_or_nothing (draw_ellipse_filled cx cy w h color tilt n).
Proof.
  unfold draw_ellipse_filled. apply lift_draws_once.
  intros pts. apply generic_draws_once.
Qed.

Lemma ellipse_outline_draws_once (cx cy w h : R) (color : Color) (bw tilt : R)
    (n : Z) :
  draws_once_or_nothing (draw_ellipse_outline cx cy w h color bw tilt n).
Proof.
  unfold draw_ellipse_outline. apply lift_draws_once.
  intros pts. apply generic_draws_once.
Qed.

Lemma raise_draws_nothing (e : exn) :
  draws_once_or_nothing (eff_raise e).
Proof.
  intros g. right. eexists. reflexivity.
Qed.

(** X3: every drawing function either issues exactly one draw call, whose
    colour has four channels, or raises with the GL context as it was: none
    leaves a drawing half done, and none draws twice. *)
Theorem drawing_is_atomic :
  (forall pts color lw,
     draws_once_or_nothing (draw_line_strip pts color lw)
     /\ draws_once_or_nothing (draw_lines pts color lw)
     /\ draws_once_or_nothing (draw_points pts color lw)
     /\ draws_once_or_nothing (draw_polygon_filled pts color)
     /\ draws_once_or_nothing (draw_polygon_outline pts color lw))
  /\ (forall x1 y1 x2 y2 x3 y3 color lw,
        draws_once_or_nothing (draw_line x1 y1 x2 y2 color lw)
        /\ draws_once_or_nothing (draw_point x1 y1 color lw)
        /\ draws_once_or_nothing (draw_triangle_filled x1 y1 x2 y2 x3 y3 color)
        /\ draws_once_or_nothing
             (draw_triangle_outline x1 y1 x2 y2 x3 y3 color lw))
  /\ (forall cx cy w h color s e bw tilt n,
        draws_once_or_nothing (draw_arc_filled cx cy w h color s e tilt n)
        /\ draws_once_or_nothing (draw_arc_outline cx cy w h color s e bw tilt n)
        /\ draws_once_or_nothing (draw_ellipse_filled cx cy w h color tilt n)
        /\ draws_once_or_nothing (draw_ellipse_outline cx cy w h color bw tilt n)
        /\ draws_once_or_nothing (draw_rectangle_filled cx cy w h color tilt)
        /\ draws_once_or_nothing (draw_rectangle_outline cx cy w h color bw tilt))
  /\ (forall a b c d color bw tilt,
        draws_once_or_nothing (draw_parabola_filled a b c d color tilt)
        /\ draws_once_or_nothing (draw_parabola_outline a b c d color bw tilt)
        /\ draws_once_or_nothing (draw_circle_filled a b c color)
        /\ draws_once_or_nothing (draw_circle_outline a b c color bw)
        /\ draws_once_or_nothing (draw_lrtb_rectangle_filled a b c d color)
        /\ draws_once_or_nothing (draw_lrtb_rectangle_outline a b c d color bw)
        /\ draws_once_or_nothing (draw_xywh_rectangle_filled a b c d color)
        /\ draws_once_or_nothing (draw_xywh_rectangle_outline a b c d color bw)).
Proof.
  split; [|split; [|split]].
  - intros. repeat split; apply generic_draws_once.
  - intros. repeat split; apply generic_draws_once.
  - intros. repeat split;
      auto using arc_filled_draws_once, arc_outline_draws_once,
        ellipse_filled_draws_once, ellipse_outline_draws_once,
        rectangle_filled_draws_once, rectangle_outline_draws_once.
  - intros. repeat split.
    + apply arc_filled_draws_once.
    + apply arc_outline_draws_once.
    + apply ellipse_filled_draws_once.
    + apply ellipse_outline_draws_once.
    + unfold draw_lrtb_rectangle_filled.
      destruct (Rgt_dec a b); [apply raise_draws_nothing|].
      destruct (Rgt_dec d c); [apply raise_draws_nothing|].
      apply rectangle_filled_draws_once.
    + unfold draw_lrtb_rectangle_outline.
      destruct (Rgt_dec a b); [apply raise_draws_nothing|].
      destruct (Rgt_dec d c); [apply raise_draws_nothing|].
      apply rectangle_outline_draws_once.
    + apply rectangle_filled_draws_once.
    + apply rectangle_outline_draws_once.
Qed.

End Submission.

(** ** Ellipses, circles, arc outlines and parabolas *)

Section Curves.

Local Open Scope R_scope.

Lemma range_cons (a b : Z) :
  (a < b)%Z -> Py.range a b = a :: Py.range (a + 1) b.
Proof.
  intros Hab. unfold Py.range.
  replace (Z.to_nat (b - a)) with (S (Z.to_nat (b - (a + 1)))) by lia.
  cbn [seq map]. f_equal; [lia|].
  rewrite <- seq_shift, map_map. apply map_ext. intros i. lia.
Qed.

Lemma tilt_branch_zero (pts : list Point) : tilt_branch 0 pts = pts.
Proof.
  unfold tilt_branch. destruct (Req_dec_T 0 0); [reflexivity|lra].
Qed.

Lemma tilt_branch_length (tilt : R) (pts : list Point) :
  length (tilt_branch tilt pts) = length pts.
Proof.
  unfold tilt_branch. destruct (Req_dec_T tilt 0); [reflexivity|].
  now rewrite rotate_all_map, length_map.
Qed.

Lemma rotate_point_origin (angle : R) : rotate_point 0 0 0 0 angle = (0, 0).
Proof.
  unfold rotate_point.
  replace ((0 - 0) * cos (Py.radians angle)
           - (0 - 0) * sin (Py.radians angle) + 0) with (IZR 0) by lra.
  replace ((0 - 0) * sin (Py.radians angle)
           + (0 - 0) * cos (Py.radians angle) + 0) with (IZR 0) by lra.
  now rewrite round2_IZR.
Qed.

Lemma generic_draw_ok (pts : list Point) (color color4 : Color) (lw : R)
    (mode : gl_mode) (g : gl_context) :
  get_four_byte_color color = inr color4 ->
  _generic_draw_line_strip pts color lw mode g =
  (inr tt, g ++ [DrawCall mode pts color4 lw]).
Proof.
  intros Hcolor. unfold _generic_draw_line_strip, eff_bind, eff_lift.
  now rewrite Hcolor.
Qed.

(** The segment loop of the ellipse functions never divides by zero: with
    no segment there is no iteration. *)
Lemma ellipse_unrotated_map (width height : R) (num_segments : Z) :
  ellipse_unrotated width height num_segments =
  inr (map (fun segment =>
              (width * cos (2 * 3.1415926 * IZR segment / IZR num_segments),
               height * sin (2 * 3.1415926 * IZR segment / IZR num_segments)))
         (Py.range 0 num_segments)).
Proof.
  unfold ellipse_unrotated. destruct (Z.eq_dec num_segments 0%Z) as [->|HN].
  - reflexivity.
  - now rewrite for_each_arc_filled_step.
Qed.

(** X4: with a positive segment count and a 3- or 4-channel colour,
    [draw_ellipse_filled] and [draw_ellipse_outline] submit the same
    [num_segments] vertices, as a triangle fan of line width 1 and as a line
    loop of line width [border_width]; with no tilt every vertex lies on the
    ellipse of radii [width] and [height] about the centre. *)
Theorem draw_ellipse_vertices (center_x center_y width height : R)
    (color color4 : Color) (border_width tilt_angle : R) (num_segments : Z)
    (g : gl_context) :
  (0 < num_segments)%Z ->
  get_four_byte_color color = inr color4 ->
  exists pts,
    draw_ellipse_filled center_x center_y width height color tilt_angle
      num_segments g =
      (inr tt, g ++ [DrawCall GL_TRIANGLE_FAN pts color4 1])
    /\ draw_ellipse_outline center_x center_y width height color border_width
         tilt_angle num_segments g =
       (inr tt, g ++ [DrawCall GL_LINE_LOOP pts color4 border_width])
    /\ length pts = Z.to_nat num_segments
    /\ (tilt_angle = 0 ->
        Forall (fun p =>
                  (height * (fst p - center_x)) * (height * (fst p - center_x))
                  + (width * (snd p - center_y)) * (width * (snd p - center_y))
                  = (width * height) * (width * height)) pts).
Proof.
  intros HN Hcolor. eexists. split; [|split; [|split]].
  - unfold draw_ellipse_filled, eff_bind, eff_lift.
    rewrite ellipse_unrotated_map, center_all_map.
    now apply generic_draw_ok.
  - unfold draw_ellipse_outline, eff_bind, eff_lift.
    rewrite ellipse_unrotated_map, center_all_map.
    now apply generic_draw_ok.
  - rewrite length_map, tilt_branch_length, length_map, range_length.
    f_equal. lia.
  - intros ->. rewrite tilt_branch_zero, map_map.
    apply List.Forall_forall. intros p Hp.
    apply in_map_iff in Hp as (segment & <- & _). cbn [fst snd].
    set (theta := 2 * 3.1415926 * IZR segment / IZR num_segments).
    pose proof (sin2_cos2 theta) as Hunit. unfold Rsqr in Hunit.
    replace (width * cos theta + center_x - center_x) with (width * cos theta)
      by lra.
    replace (height * sin theta + center_y - center_y)
      with (height * sin theta) by lra.
    replace (height * (width * cos theta) * (height * (width * cos theta))
             + width * (height * sin theta) * (width * (height * sin theta)))
      with (width * height * (width * height)
            * (sin theta * sin theta + cos theta * cos theta)) by ring.
    rewrite Hunit. ring.
Qed.

Lemma draw_ellipse_vertices_witness :
  exists pts,
    draw_ellipse_filled 60 81 15 36 [255; 191; 0]%Z 0 128 [] =
      (inr tt, [DrawCall GL_TRIANGLE_FAN pts [255; 191; 0; 255]%Z 1])
    /\ length pts = 128%nat.
Proof.
  destruct (draw_ellipse_vertices 60 81 15 36 [255; 191; 0]%Z
              [255; 191; 0; 255]%Z 1 0 128 [] ltac:(lia) eq_refl)
    as (pts & Hfilled & _ & Hlen & _).
  exists pts. split; [exact Hfilled|exact Hlen].
Defined.

(** X5: [draw_circle_filled] and [draw_circle_outline] submit the same 128
    vertices, the first at [(center_x + radius, center_y)], every one at
    distance [radius] from the centre; the fan has line width 1, the loop
    line width [border_width]. *)
Theorem draw_circle_vertices (center_x center_y radius : R)
    (color color4 : Color) (border_width : R) (g : gl_context) :
  get_four_byte_color color = inr color4 ->
  exists pts,
    draw_circle_filled center_x center_y radius color g =
      (inr tt, g ++ [DrawCall GL_TRIANGLE_FAN pts color4 1])
    /\ draw_circle_outline center_x center_y radius color border_width g =
       (inr tt, g ++ [DrawCall GL_LINE_LOOP pts color4 border_width])
    /\ length pts = 128%nat
    /\ nth_error pts 0 = Some (center_x + radius, center_y)
    /\ Forall (fun p =>
                 (fst p - center_x) * (fst p - center_x)
                 + (snd p - center_y) * (snd p - center_y)
                 = radius * radius) pts.
Proof.
  intros Hcolor. eexists. split; [|split; [|split; [|split]]].
  - unfold draw_circle_filled, draw_ellipse_filled, eff_bind, eff_lift.
    rewrite ellipse_unrotated_map, center_all_map, tilt_branch_zero.
    now apply generic_draw_ok.
  - unfold draw_circle_outline, draw_ellipse_outline, eff_bind, eff_lift.
    rewrite ellipse_unrotated_map, center_all_map, tilt_branch_zero.
    now apply generic_draw_ok.
  - now rewrite !length_map, range_length.
  - rewrite (range_cons 0 128) by lia. cbn [map nth_error fst snd].
    match goal with
    | |- context [cos ?theta] =>
      replace theta with 0 by (unfold Rdiv; ring)
    end.
    rewrite cos_0, sin_0. do 2 f_equal; lra.
  - rewrite map_map. apply List.Forall_forall. intros p Hp.
    apply in_map_iff in Hp as (segment & <- & _). cbn [fst snd].
    set (theta := 2 * 3.1415926 * IZR segment / 128).
    pose proof (sin2_cos2 theta) as Hunit. unfold Rsqr in Hunit.
    replace ((radius * cos theta + center_x - center_x)
             * (radius * cos theta + center_x - center_x)
             + (radius * sin theta + center_y - center_y)
               * (radius * sin theta + center_y - center_y))
      with (radius * radius * (sin theta * sin theta + cos theta * cos theta))
      by ring.
    rewrite Hunit. ring.
Qed.

Lemma draw_circle_vertices_witness :
  exists pts,
    draw_circle_filled 420 285 18 [0; 255; 0]%Z [] =
      (inr tt, [DrawCall GL_TRIANGLE_FAN pts [0; 255; 0; 255]%Z 1])
    /\ nth_error pts 0 = Some (420 + 18, 285).
Proof.
  destruct (draw_circle_vertices 420 285 18 [0; 255; 0]%Z [0; 255; 0; 255]%Z
              1 [] eq_refl)
    as (pts & Hfilled & _ & _ & Hfirst & _).
  exists pts. split; [exact Hfilled|exact Hfirst].
Defined.

Lemma arc_segment_zero (angle : float) :
  arc_segment angle 0 =
  if Double.finite (angle / 360)%float then inr 0%Z
  else inl (ValueError "cannot convert float NaN to integer").
Proof.
  unfold arc_segment. change (Double.of_int 0) with (@inr exn float 0%float).
  unfold Double.to_int, Double.finite. rewrite mul_spec.
  change (Prim2SF 0) with (S754_zero false).
  now destruct (Prim2SF (angle / 360)%float) as [s|s| |s m e].
Qed.

(** X6: with [num_segments = 0] both arc functions raise, whatever the
    angles, and issue no draw call.  They raise [ZeroDivisionError] when
    the quotients [start_angle / 360] and [end_angle / 360] are finite:
    both segment bounds are then 0, and the loop runs once and divides by
    [num_segments].  Otherwise they raise the [ValueError] of [int] on the
    NaN that an infinity times 0.0 gives. *)
Theorem draw_arc_zero_segments (center_x center_y width height : R)
    (color : Color) (start_angle end_angle : float)
    (border_width tilt_angle : R) (g : gl_context) :
  let e :=
    if Double.finite (start_angle / 360)%float
       && Double.finite (end_angle / 360)%float
    then ZeroDivisionError
    else ValueError "cannot convert float NaN to integer" in
  draw_arc_filled center_x center_y width height color start_angle end_angle
    tilt_angle 0 g = (inl e, g)
  /\ draw_arc_outline center_x center_y width height color start_angle
       end_angle border_width tilt_angle 0 g = (inl e, g)
  /\ draw_arc_filled center_x center_y width height color 0 180 tilt_angle 0
       g = (inl ZeroDivisionError, g)
  /\ draw_arc_outline center_x center_y width height color 0 180 border_width
       tilt_angle 0 g = (inl ZeroDivisionError, g).
Proof.
  assert (Hfilled : forall s e : float,
    draw_arc_filled center_x center_y width height color s e tilt_angle 0 g =
    (inl (if Double.finite (s / 360)%float && Double.finite (e / 360)%float
          then ZeroDivisionError
          else ValueError "cannot convert float NaN to integer"), g)).
  { intros s e.
    unfold draw_arc_filled, arc_filled_unrotated, eff_bind, eff_lift.
    rewrite !arc_segment_zero.
    destruct (Double.finite (s / 360)%float); [|reflexivity].
    destruct (Double.finite (e / 360)%float); reflexivity. }
  assert (Houtline : forall s e : float,
    draw_arc_outline center_x center_y width height color s e border_width
      tilt_angle 0 g =
    (inl (if Double.finite (s / 360)%float && Double.finite (e / 360)%float
          then ZeroDivisionError
          else ValueError "cannot convert float NaN to integer"), g)).
  { intros s e.
    unfold draw_arc_outline, arc_outline_unrotated, eff_bind, eff_lift.
    rewrite !arc_segment_zero.
    destruct (Double.finite (s / 360)%float); [|reflexivity].
    destruct (Double.finite (e / 360)%float); reflexivity. }
  cbv zeta. split; [apply Hfilled|]. split; [apply Houtline|].
  split; [apply (Hfilled 0%float 180%float)|].
  apply (Houtline 0%float 180%float).
Qed.

Lemma for_each_arc_outline_step (iw ow ih oh : R) (num_segments : Z)
    (segments : list Z) (acc : list Point) :
  num_segments <> 0%Z ->
  for_each (arc_outline_step iw ow ih oh num_segments) segments acc =
  inr (acc ++
       flat_map (fun segment =>
                   [(iw * cos (2 * PI * IZR segment / IZR num_segments),
                     ih * sin (2 * PI * IZR segment / IZR num_segments));
                    (ow * cos (2 * PI * IZR segment / IZR num_segments),
                     oh * sin (2 * PI * IZR segment / IZR num_segments))])
         segments).
Proof.
  intros HN. revert acc.
  induction segments as [|segment segments IH]; intros acc; cbn [for_each flat_map].
  - now rewrite app_nil_r.
  - unfold arc_outline_step at 1, truediv.
    destruct (Z.eqb_spec num_segments 0); [contradiction|].
    rewrite IH, <- !app_assoc. reflexivity.
Qed.

Lemma flat_map_pair_length {A B : Type} (f1 f2 : A -> B) (l : list A) :
  length (flat_map (fun a => [f1 a; f2 a]) l) = (2 * length l)%nat.
Proof.
  induction l as [|a l IH]; simpl; [reflexivity|]. rewrite IH. lia.
Qed.

(** X7: with a non-zero segment count, [draw_arc_outline] builds for each
    segment from the start to the end segment, the doubles
    [start_angle / 360 * N] and [end_angle / 360 * N] truncated towards
    zero, an inner point of radii [width - border_width / 2],
    [height - border_width / 2] and an outer point of radii
    [width + border_width / 2], [height + border_width / 2], at the angle
    [2 * PI * segment / num_segments]: two vertices per segment, submitted
    tilted and translated as a triangle strip of line width 1. *)
Theorem draw_arc_outline_ribbon (center_x center_y width height : R)
    (color : Color) (start_angle end_angle : float)
    (border_width tilt_angle : R)
    (num_segments start_segment end_segment : Z) (g : gl_context) :
  num_segments <> 0%Z ->
  arc_segment start_angle num_segments = inr start_segment ->
  arc_segment end_angle num_segments = inr end_segment ->
  let theta segment := 2 * PI * IZR segment / IZR num_segments in
  let inner segment :=
    ((width - border_width / 2) * cos (theta segment),
     (height - border_width / 2) * sin (theta segment)) in
  let outer segment :=
    ((width + border_width / 2) * cos (theta segment),
     (height + border_width / 2) * sin (theta segment)) in
  let ribbon :=
    flat_map (fun segment => [inner segment; outer segment])
      (Py.range start_segment (end_segment + 1)) in
  arc_outline_unrotated width height start_angle end_angle border_width
    num_segments = inr ribbon
  /\ length ribbon = (2 * Z.to_nat (end_segment + 1 - start_segment))%nat
  /\ (exists n : float,
        Double.of_int num_segments = inr n
        /\ start_segment = Py.int (Double.to_R (start_angle / 360 * n)%float)
        /\ end_segment = Py.int (Double.to_R (end_angle / 360 * n)%float))
  /\ draw_arc_outline center_x center_y width height color start_angle
       end_angle border_width tilt_angle num_segments g =
     _generic_draw_line_strip
       (map (fun p => (fst p + center_x, snd p + center_y))
          (tilt_branch tilt_angle ribbon))
       color 1 GL_TRIANGLE_STRIP g.
Proof.
  intros HN Hs He theta inner outer ribbon.
  assert (Hun : arc_outline_unrotated width height start_angle end_angle
                  border_width num_segments = inr ribbon).
  { unfold arc_outline_unrotated. rewrite Hs, He.
    now rewrite for_each_arc_outline_step. }
  split; [exact Hun|]. split; [|split].
  - unfold ribbon. now rewrite flat_map_pair_length, range_length.
  - destruct (arc_segment_trunc _ _ _ Hs) as (n & Hn & Hstart).
    destruct (arc_segment_trunc _ _ _ He) as (n' & Hn' & Hend).
    rewrite Hn in Hn'. injection Hn' as <-.
    exists n. split; [exact Hn|]. split; [exact Hstart|exact Hend].
  - unfold draw_arc_outline, eff_bind, eff_lift.
    now rewrite Hun, center_all_map.
Qed.

Lemma draw_arc_outline_ribbon_witness :
  length
    (flat_map
       (fun segment =>
          [((1 - 4 / 2) * cos (2 * PI * IZR segment / IZR 128),
            (1 - 4 / 2) * sin (2 * PI * IZR segment / IZR 128));
           ((1 + 4 / 2) * cos (2 * PI * IZR segment / IZR 128),
            (1 + 4 / 2) * sin (2 * PI * IZR segment / IZR 128))])
       (Py.range 0 (64 + 1))) =
  (2 * Z.to_nat (64 + 1 - 0))%nat.
Proof.
  apply (draw_arc_outline_ribbon 0 0 1 1 [0; 0; 0]%Z 0 180 4 0 128 0 64 []);
    [lia|vm_compute; reflexivity|vm_compute; reflexivity].
Defined.

End Curves.

(** ** Parabolas *)

Section Parabolas.

Local Open Scope R_scope.

Lemma tilt_branch_pivot (tilt : R) (pts : list Point) :
  nth_error (tilt_branch tilt ((0, 0) :: pts)) 0 = Some (0, 0).
Proof.
  unfold tilt_branch. destruct (Req_dec_T tilt 0); [reflexivity|].
  rewrite rotate_all_map. cbn [map nth_error fst snd].
  now rewrite rotate_point_origin.
Qed.

(** X8: on a 3- or 4-channel colour [draw_parabola_filled] submits one
    triangle fan of 66 vertices whose first is the pivot
    [((start_x + end_x) / 2, start_y + height)]; with no tilt the second
    vertex lies [start_x - end_x] to the right of the pivot, so the arc has
    the whole distance between [start_x] and [end_x] as its radius.
    [draw_parabola_outline] submits one triangle strip of 130 vertices of
    line width 1. *)
Theorem draw_parabola_vertices (start_x start_y end_x height : R)
    (color color4 : Color) (border_width tilt_angle : R) (g : gl_context) :
  get_four_byte_color color = inr color4 ->
  (exists pts,
     draw_parabola_filled start_x start_y end_x height color tilt_angle g =
       (inr tt, g ++ [DrawCall GL_TRIANGLE_FAN pts color4 1])
     /\ length pts = 66%nat
     /\ nth_error pts 0 = Some ((start_x + end_x) / 2, start_y + height)
     /\ (tilt_angle = 0 ->
         nth_error pts 1 =
         Some ((start_x + end_x) / 2 + (start_x - end_x), start_y + height)))
  /\ (exists pts,
        draw_parabola_outline start_x start_y end_x height color border_width
          tilt_angle g =
          (inr tt, g ++ [DrawCall GL_TRIANGLE_STRIP pts color4 1])
        /\ length pts = 130%nat).
Proof.
  intros Hcolor. split.
  - eexists. split; [|split; [|split]].
    + unfold draw_parabola_filled, draw_arc_filled, eff_bind, eff_lift.
      rewrite (arc_filled_unrotated_map _ _ 0 180 128 0 64)
        by (lia || exact arc_segment_0_128 || exact arc_segment_180_128).
      rewrite center_all_map. now apply generic_draw_ok.
    + rewrite length_map, tilt_branch_length. cbn [length].
      now rewrite length_map, range_length.
    + rewrite nth_error_map, tilt_branch_pivot. cbn [option_map fst snd].
      do 2 f_equal; lra.
    + intros ->. rewrite tilt_branch_zero.
      rewrite (range_cons 0 (64 + 1)) by lia. cbn [map nth_error fst snd].
      match goal with
      | |- context [cos ?theta] =>
        replace theta with 0 by (unfold Rdiv; ring)
      end.
      rewrite cos_0, sin_0. do 2 f_equal; lra.
  - eexists. split.
    + unfold draw_parabola_outline, draw_arc_outline, arc_outline_unrotated,
        eff_bind, eff_lift.
      rewrite arc_segment_0_128, arc_segment_180_128.
      rewrite for_each_arc_outline_step by lia. cbn [app].
      rewrite center_all_map. now apply generic_draw_ok.
    + now rewrite length_map, tilt_branch_length, flat_map_pair_length,
        range_length.
Qed.

Lemma draw_parabola_vertices_witness :
  exists pts,
    draw_parabola_filled 150 150 200 50 [0; 106; 78]%Z 0 [] =
      (inr tt, [DrawCall GL_TRIANGLE_FAN pts [0; 106; 78; 255]%Z 1])
    /\ nth_error pts 1 = Some ((150 + 200) / 2 + (150 - 200), 150 + 50).
Proof.
  destruct (proj1 (draw_parabola_vertices 150 150 200 50 [0; 106; 78]%Z
                     [0; 106; 78; 255]%Z 1 0 [] eq_refl))
    as (pts & Hdraw & _ & _ & Hsecond).
  exists pts. split; [exact Hdraw|exact (Hsecond eq_refl)].
Defined.

End Parabolas.

(** ** Rectangle geometry *)

Section RectangleGeometry.

Local Open Scope R_scope.

(** X9: the untilted corners form an axis-parallel box whose sides differ
    from [width] and [height] by less than 1; for integer centre and sizes
    the sides are exactly [width] and [height], and the box is centred on
    the centre when the size is even and lies half a unit to the left
    (below) when it is odd. *)
Theorem rectangle_corners_extent :
  (forall cx cy w h : R,
     let '(p1, p2, p3, p4) := rectangle_corners cx cy w h in
     fst p1 = fst p4 /\ fst p2 = fst p3 /\ snd p1 = snd p2 /\ snd p3 = snd p4
     /\ w - 1 < fst p2 - fst p1 < w + 1
     /\ h - 1 < snd p3 - snd p2 < h + 1)
  /\ (forall cx cy w h : Z,
        let '(p1, p2, p3, p4) :=
          rectangle_corners (IZR cx) (IZR cy) (IZR w) (IZR h) in
        fst p2 - fst p1 = IZR w
        /\ snd p3 - snd p2 = IZR h
        /\ fst p1 + fst p2 = 2 * IZR cx - IZR (w mod 2)
        /\ snd p2 + snd p3 = 2 * IZR cy - IZR (h mod 2)).
Proof.
  split.
  - intros cx cy w h. unfold rectangle_corners, Py.floordiv. cbn [fst snd].
    pose proof (Int_part_bounds (w / 2)). pose proof (Int_part_bounds (- w / 2)).
    pose proof (Int_part_bounds (h / 2)). pose proof (Int_part_bounds (- h / 2)).
    repeat split; lra.
  - intros cx cy w h. rewrite rectangle_corners_Z. cbn [fst snd].
    pose proof (Z.div_mod w 2 ltac:(lia)).
    pose proof (Z.div_mod (- w) 2 ltac:(lia)).
    pose proof (Z.mod_pos_bound w 2 ltac:(lia)).
    pose proof (Z.mod_pos_bound (- w) 2 ltac:(lia)).
    pose proof (Z.div_mod h 2 ltac:(lia)).
    pose proof (Z.div_mod (- h) 2 ltac:(lia)).
    pose proof (Z.mod_pos_bound h 2 ltac:(lia)).
    pose proof (Z.mod_pos_bound (- h) 2 ltac:(lia)).
    repeat split.
    + rewrite <- minus_IZR. f_equal. lia.
    + rewrite <- minus_IZR. f_equal. lia.
    + rewrite <- plus_IZR. change 2 with (IZR 2).
      rewrite <- mult_IZR, <- minus_IZR. f_equal. lia.
    + rewrite <- plus_IZR. change 2 with (IZR 2).
      rewrite <- mult_IZR, <- minus_IZR. f_equal. lia.
Qed.

(** X10: [draw_lrtb_rectangle_outline] raises [AttributeError] whenever
    [left > right] or [bottom > top], issuing no draw call; otherwise it is
    [draw_rectangle_outline] at the centre and size of the box and raises no
    [AttributeError]; a box with [left = right] and [top = bottom] is drawn
    as four coinciding corners. *)
Theorem draw_lrtb_rectangle_outline_bounds (left right top bottom : R)
    (color : Color) (border_width : R) (g : gl_context) :
  (left > right \/ bottom > top ->
   exists msg,
     draw_lrtb_rectangle_outline left right top bottom color border_width g =
     (inl (AttributeError msg), g))
  /\ (left <= right -> bottom <= top ->
      draw_lrtb_rectangle_outline left right top bottom color border_width g =
      draw_rectangle_outline ((left + right) / 2) ((top + bottom) / 2)
        (right - left) (top - bottom) color border_width 0 g
      /\ forall msg,
           fst (draw_lrtb_rectangle_outline left right top bottom color
                  border_width g) <> inl (AttributeError msg))
  /\ (left = right -> top = bottom ->
      draw_lrtb_rectangle_outline left right top bottom color border_width g =
      _generic_draw_line_strip
        [(left, top); (left, top); (left, top); (left, top)]
        color border_width GL_LINE_LOOP g).
Proof.
  unfold draw_lrtb_rectangle_outline. split; [|split].
  - intros Hbad. destruct (Rgt_dec left right) as [Hl|Hl].
    + eexists. reflexivity.
    + destruct (Rgt_dec bottom top) as [Hb|Hb].
      * eexists. reflexivity.
      * lra.
  - intros Hl Hb.
    destruct (Rgt_dec left right); [lra|].
    destruct (Rgt_dec bottom top); [lra|].
    split; [reflexivity|]. intros msg. unfold draw_rectangle_outline.
    destruct (rectangle_tilted _ _ _ _ 0) as [[[p1 p2] p3] p4].
    apply generic_draw_no_attribute_error.
  - intros <- <-.
    destruct (Rgt_dec left left); [lra|].
    destruct (Rgt_dec top top); [lra|].
    unfold draw_rectangle_outline.
    rewrite rectangle_tilted_zero. unfold rectangle_corners, Py.floordiv.
    replace (- (left - left) / 2) with (IZR 0) by lra.
    replace ((left - left) / 2) with (IZR 0) by lra.
    replace (- (top - top) / 2) with (IZR 0) by lra.
    replace ((top - top) / 2) with (IZR 0) by lra.
    rewrite Int_part_IZR.
    replace (0 + (left + left) / 2) with left by lra.
    replace (0 + (top + top) / 2) with top by lra.
    reflexivity.
Qed.

Lemma draw_lrtb_rectangle_outline_bounds_witness :
  (exists msg,
     draw_lrtb_rectangle_outline 190 180 100 100 [0; 0; 0]%Z 5 [] =
     (inl (AttributeError msg), []))
  /\ (exists msg,
        draw_lrtb_rectangle_outline 170 180 100 200 [0; 0; 0]%Z 5 [] =
        (inl (AttributeError msg), []))
  /\ draw_lrtb_rectangle_outline 100 100 100 100 [0; 0; 0]%Z 5 [] =
     _generic_draw_line_strip
       [(100, 100); (100, 100); (100, 100); (100, 100)]
       [0; 0; 0]%Z 5 GL_LINE_LOOP [].
Proof.
  split; [|split].
  - apply (proj1 (draw_lrtb_rectangle_outline_bounds 190 180 100 100
                    [0; 0; 0]%Z 5 [])).
    left. lra.
  - apply (proj1 (draw_lrtb_rectangle_outline_bounds 170 180 100 200
                    [0; 0; 0]%Z 5 [])).
    right. lra.
  - apply (proj2 (proj2 (draw_lrtb_rectangle_outline_bounds 100 100 100 100
                           [0; 0; 0]%Z 5 []))); reflexivity.
Defined.



End RectangleGeometry.

(** ** Quarter, half and full turns *)

Section Turns.

Local Open Scope R_scope.


End Turns.

(** ** The texture cache over time *)

Section CacheInvariant.

Local Open Scope Z_scope.

(** The four ways a call of [load_texture] ends: a cache hit; an exception
    before any texture is generated; an exception of the [Texture]
    constructor, after one was; a new cached [Texture]. *)
Lemma load_texture_outcomes (images : string -> option image)
    (file_name : string) (x y width height : Z) (mirrored flipped : bool)
    (scale : Z) (w : world) :
  let key := cache_name_of file_name x y width height scale flipped mirrored in
  let r := load_texture images file_name x y width height mirrored flipped
             scale w in
  (exists t, texture_cache w !! key = Some t /\ r = (inr t, w))
  \/ (texture_cache w !! key = None /\ exists e, r = (inl e, w))
  \/ (texture_cache w !! key = None
      /\ exists msg,
           r = (inl (ValueError msg),
                World (gl_textures w + 1) (heap w) (texture_cache w)))
  \/ (texture_cache w !! key = None
      /\ exists self,
           r = (inr (length (heap w)),
                World (gl_textures w + 1) (heap w ++ [self])
                  (<[key := length (heap w)]> (texture_cache w)))).
Proof.
  cbv zeta.
  destruct (load_texture images file_name x y width height mirrored flipped
              scale w) as [res w'] eqn:Hr.
  unfold load_texture, eff_bind, eff_get in Hr.
  destruct (texture_cache w !! _) as [t|] eqn:Hcache.
  { unfold eff_ret in Hr. injection Hr as <- <-.
    left. exists t. split; reflexivity. }
  right. unfold PIL_open in Hr.
  destruct (images file_name) as [[sw sh]|].
  2:{ unfold eff_raise in Hr. injection Hr as <- <-.
      left. split; [reflexivity|]. eexists. reflexivity. }
  unfold eff_ret at 1 in Hr.
  assert (Htail : forall iw ih,
    Texture (gl_textures w + 1) (iw * scale) (ih * scale) (VStr file_name)
      (World (gl_textures w + 1) (heap w) (texture_cache w)) =
    (if ih * scale <? 0 then
       (inl (ValueError
          "Height entered is less than zero. Height must be a positive float."),
        World (gl_textures w + 1) (heap w) (texture_cache w))
     else if iw * scale <? 0 then
       (inl (ValueError
          "Width entered is less than zero. Width must be a positive float."),
        World (gl_textures w + 1) (heap w) (texture_cache w))
     else
       (inr (length (heap w)),
        World (gl_textures w + 1)
          (heap w ++ [texture_dict (gl_textures w + 1) (iw * scale)
                        (ih * scale) (VStr file_name)])
          (texture_cache w)))).
  { intros iw ih. now rewrite Texture_cases. }
  destruct (negb _).
  - rewrite check_crop_cases in Hr.
    destruct ((x >? sw) || (y >? sh) || (x + width >? sw)
              || (y + height >? sh)) eqn:Hbad.
    + destruct (check_crop_raises x y width height sw sh w Hbad) as [msg Hc].
      rewrite Hc in Hr. cbn [fst] in Hr. injection Hr as <- <-.
      left. split; [reflexivity|]. eexists. reflexivity.
    + right. unfold eff_ret at 1, PIL_mirror, PIL_flip, PIL_crop in Hr.
      destruct mirrored, flipped;
        unfold glGenTextures in Hr; rewrite Htail in Hr;
        (destruct (_ * scale <? 0);
           [injection Hr as <- <-; left; split;
              [reflexivity|eexists; reflexivity]|]);
        (destruct (_ * scale <? 0);
           [injection Hr as <- <-; left; split;
              [reflexivity|eexists; reflexivity]|]);
        unfold eff_modify, eff_ret in Hr; injection Hr as <- <-;
        right; (split; [reflexivity|]); eexists; reflexivity.
  - right. unfold eff_ret at 1, PIL_mirror, PIL_flip in Hr.
    destruct mirrored, flipped;
      unfold glGenTextures in Hr; rewrite Htail in Hr;
      (destruct (_ * scale <? 0);
         [injection Hr as <- <-; left; split;
            [reflexivity|eexists; reflexivity]|]);
      (destruct (_ * scale <? 0);
         [injection Hr as <- <-; left; split;
            [reflexivity|eexists; reflexivity]|]);
      unfold eff_modify, eff_ret in Hr; injection Hr as <- <-;
      right; (split; [reflexivity|]); eexists; reflexivity.
Qed.

Lemma world_grows_refl (w : world) : world_grows w w.
Proof.
  split; [|split].
  - exists []. now rewrite app_nil_r.
  - auto.
  - lia.
Qed.

Lemma load_texture_grows (images : string -> option image)
    (file_name : string) (x y width height : Z) (mirrored flipped : bool)
    (scale : Z) (w : world) :
  world_grows w
    (snd (load_texture images file_name x y width height mirrored flipped
            scale w)).
Proof.
  destruct (load_texture_outcomes images file_name x y width height mirrored
              flipped scale w)
    as [(t & _ & ->)|[(_ & e & ->)|[(_ & msg & ->)|(Hmiss & self & ->)]]];
    cbn [snd]; try apply world_grows_refl.
  - split; [|split]; cbn [heap texture_cache gl_textures].
    + exists []. now rewrite app_nil_r.
    + auto.
    + lia.
  - split; [|split]; cbn [heap texture_cache gl_textures].
    + eexists. reflexivity.
    + intros k t Hk. rewrite lookup_insert_ne; [exact Hk|].
      intros <-. rewrite Hmiss in Hk. discriminate.
    + lia.
Qed.

Lemma load_texture_keeps_cache_ok (images : string -> option image)
    (file_name : string) (x y width height : Z) (mirrored flipped : bool)
    (scale : Z) (w : world) :
  cache_ok w ->
  cache_ok
    (snd (load_texture images file_name x y width height mirrored flipped
            scale w)).
Proof.
  intros [Hlive Hinj].
  destruct (load_texture_outcomes images file_name x y width height mirrored
              flipped scale w)
    as [(t & _ & ->)|[(_ & e & ->)|[(_ & msg & ->)|(Hmiss & self & ->)]]];
    cbn [snd]; try (split; assumption).
  split; cbn [heap texture_cache].
  - intros k t. rewrite length_app. cbn [length].
    destruct (decide (cache_name_of file_name x y width height scale flipped
                        mirrored = k)) as [<-|Hne].
    + rewrite lookup_insert_eq. intros H. injection H as <-. lia.
    + rewrite lookup_insert_ne by exact Hne. intros Hk.
      apply Hlive in Hk. lia.
  - intros k1 k2 t.
    destruct (decide (cache_name_of file_name x y width height scale flipped
                        mirrored = k1)) as [<-|Hne1];
      destruct (decide (cache_name_of file_name x y width height scale flipped
                          mirrored = k2)) as [<-|Hne2];
      rewrite ?lookup_insert_eq, ?lookup_insert_ne by assumption.
    + reflexivity.
    + intros H1 H2. injection H1 as <-. apply Hlive in H2. lia.
    + intros H1 H2. injection H2 as <-. apply Hlive in H1. lia.
    + apply Hinj.
Qed.

(** One iteration of the loop of [load_textures], however it ends. *)
Lemma load_textures_step_grows (source_image : image) (mirrored flipped : bool)
    (scale : Z) (acc : list nat) (loc : Z * Z * Z * Z) (w : world) :
  let w' := snd (load_textures_step source_image mirrored flipped scale acc
                   loc w) in
  texture_cache w' = texture_cache w
  /\ (exists objs, heap w' = heap w ++ objs)
  /\ gl_textures w <= gl_textures w'.
Proof.
  cbv zeta. destruct source_image as [sw sh].
  destruct loc as [[[x y] width] height].
  assert (Hsame : texture_cache w = texture_cache w
                  /\ (exists objs, heap w = heap w ++ objs)
                  /\ gl_textures w <= gl_textures w).
  { split; [reflexivity|]. split; [|lia]. exists []. now rewrite app_nil_r. }
  destruct (load_textures_step (sw, sh) mirrored flipped scale acc
              (x, y, width, height) w) as [res w'] eqn:Hr.
  cbn [snd]. unfold load_textures_step, eff_bind in Hr.
  destruct (width <=? 0).
  { unfold eff_raise in Hr. injection Hr as <- <-. exact Hsame. }
  unfold eff_ret at 1 in Hr. rewrite check_crop_cases in Hr.
  destruct ((x >? sw) || (y >? sh) || (x + width >? sw) || (y + height >? sh))
    eqn:Hbad.
  { destruct (check_crop_raises x y width height sw sh w Hbad) as [msg Hc].
    rewrite Hc in Hr. cbn [fst] in Hr. injection Hr as <- <-. exact Hsame. }
  unfold PIL_mirror, PIL_flip, PIL_crop in Hr.
  destruct mirrored, flipped;
    unfold glGenTextures in Hr; rewrite Texture_cases in Hr;
    cbn [heap gl_textures texture_cache] in Hr;
    (destruct (height <? 0);
       [injection Hr as <- <-; cbn [heap gl_textures texture_cache];
        split; [reflexivity|]; split; [|lia];
        exists []; now rewrite app_nil_r|]);
    (destruct (width <? 0);
       [injection Hr as <- <-; cbn [heap gl_textures texture_cache];
        split; [reflexivity|]; split; [|lia];
        exists []; now rewrite app_nil_r|]);
    unfold eff_ret in Hr; injection Hr as <- <-;
    cbn [heap gl_textures texture_cache];
    (split; [reflexivity|]); (split; [|lia]); eexists; reflexivity.
Qed.

Lemma load_textures_loop_grows (source_image : image) (mirrored flipped : bool)
    (scale : Z) (locs : list (Z * Z * Z * Z)) (acc : list nat) (w : world) :
  let w' := snd (for_each_eff
                   (load_textures_step source_image mirrored flipped scale)
                   locs acc w) in
  texture_cache w' = texture_cache w
  /\ (exists objs, heap w' = heap w ++ objs)
  /\ gl_textures w <= gl_textures w'.
Proof.
  cbv zeta. revert acc w.
  induction locs as [|loc locs IH]; intros acc w; cbn [for_each_eff].
  - split; [reflexivity|]. split; [|cbn; lia].
    exists []. cbn. now rewrite app_nil_r.
  - unfold eff_bind.
    pose proof (load_textures_step_grows source_image mirrored flipped scale
                  acc loc w) as Hstep. cbv zeta in Hstep.
    destruct (load_textures_step source_image mirrored flipped scale acc loc w)
      as [[e|acc1] w1]; cbn [snd] in Hstep |- *; [exact Hstep|].
    destruct Hstep as (Hc1 & (objs1 & Hh1) & Hg1).
    destruct (IH acc1 w1) as (Hc & (objs & Hh) & Hg).
    split; [congruence|]. split; [|lia].
    exists (objs1 ++ objs). now rewrite Hh, Hh1, app_assoc.
Qed.

Lemma load_textures_grows (images : string -> option image)
    (file_name : string) (locs : list (Z * Z * Z * Z))
    (mirrored flipped : bool) (scale : Z) (w : world) :
  let w' := snd (load_textures images file_name locs mirrored flipped scale w) in
  texture_cache w' = texture_cache w
  /\ (exists objs, heap w' = heap w ++ objs)
  /\ gl_textures w <= gl_textures w'.
Proof.
  cbv zeta. unfold load_textures, eff_bind, PIL_open.
  destruct (images file_name) as [source_image|].
  - unfold eff_ret at 1. apply load_textures_loop_grows.
  - cbn. split; [reflexivity|]. split; [|lia].
    exists []. now rewrite app_nil_r.
Qed.

(** X13: the cache stays sound: starting from an empty cache, after any
    sequence of [load_texture] and [load_textures] calls, whether they
    return or raise, every cached reference is a live [Texture] object and
    no two cache keys refer to the same object; and no call removes an
    object, drops or changes a cache entry, or reuses a texture name. *)
Theorem texture_cache_invariant :
  (forall n, cache_ok (World n [] ∅))
  /\ (forall images file_name x y width height mirrored flipped scale w,
        let w' := snd (load_texture images file_name x y width height
                         mirrored flipped scale w) in
        world_grows w w' /\ (cache_ok w -> cache_ok w'))
  /\ (forall images file_name locs mirrored flipped scale w,
        let w' := snd (load_textures images file_name locs mirrored flipped
                         scale w) in
        world_grows w w' /\ (cache_ok w -> cache_ok w')).
Proof.
  split; [|split].
  - intros n. split; cbn [texture_cache].
    + intros k t H. rewrite lookup_empty in H. discriminate.
    + intros k1 k2 t H. rewrite lookup_empty in H. discriminate.
  - intros. split.
    + apply load_texture_grows.
    + apply load_texture_keeps_cache_ok.
  - intros images file_name locs mirrored flipped scale w.
    destruct (load_textures_grows images file_name locs mirrored flipped
                scale w) as (Hc & (objs & Hh) & Hg).
    cbv zeta. split.
    + split; [|split].
      * exists objs. exact Hh.
      * intros k t. now rewrite Hc.
      * exact Hg.
    + intros [Hlive Hinj]. split.
      * intros k t. rewrite Hc, Hh, length_app. intros Hk.
        apply Hlive in Hk. lia.
      * intros k1 k2 t. rewrite Hc. apply Hinj.
Qed.

Lemma texture_cache_invariant_witness :
  cache_ok
    (snd (load_texture example_images "a.png" 1 2 34 5 false false 1
            (World 0 [] ∅))).
Proof.
  apply (proj2 (proj1 (proj2 texture_cache_invariant) example_images
                  "a.png"%string 1 2 34 5 false false 1 (World 0 [] ∅))).
  apply (proj1 texture_cache_invariant 0).
Defined.

End CacheInvariant.

(** ** Cache hits and misses *)

Section CacheUse.

Local Open Scope Z_scope.

(** X14: once [load_texture] has returned a [Texture], a second call with
    the same arguments returns the same object and changes nothing; it does
    not open the file, so it returns even when the image is gone. *)
Theorem load_texture_repeat (images images' : string -> option image)
    (file_name : string) (x y width height : Z) (mirrored flipped : bool)
    (scale : Z) (w w1 : world) (t : nat) :
  load_texture images file_name x y width height mirrored flipped scale w =
    (inr t, w1) ->
  load_texture images' file_name x y width height mirrored flipped scale w1 =
    (inr t, w1).
Proof.
  intros Hfirst. apply load_texture_hit.
  exact (load_texture_caches _ _ _ _ _ _ _ _ _ _ _ _ Hfirst).
Qed.

Lemma load_texture_repeat_witness :
  load_texture (fun _ => None) "a.png" 1 2 34 5 false false 1
    (World 1 [texture_dict 1 34 5 (VStr "a.png")]
       (<[cache_name_of "a.png" 1 2 34 5 1 false false := 0%nat]> ∅)) =
  (inr 0%nat,
   World 1 [texture_dict 1 34 5 (VStr "a.png")]
     (<[cache_name_of "a.png" 1 2 34 5 1 false false := 0%nat]> ∅)).
Proof.
  apply (load_texture_repeat example_images (fun _ => None) "a.png" 1 2 34 5
           false false 1 (World 0 [] ∅)).
  rewrite (load_texture_miss example_images "a.png" 1 2 34 5 false false 1
             (World 0 [] ∅) (100, 100));
    [reflexivity|reflexivity|reflexivity|simpl; lia|lia].
Defined.

(** X15: of two calls of [load_texture] that return, one after the other
    from a sound cache, the second returns the object of the first exactly
    when the two cache keys are the same string; calls that differ in
    [scale] alone return two different [Texture] objects. *)
Theorem load_texture_same_object_iff (images images' : string -> option image)
    (file_name file_name' : string) (x y width height x' y' width' height' : Z)
    (mirrored flipped mirrored' flipped' : bool) (scale scale' : Z)
    (w w1 w2 : world) (t1 t2 : nat) :
  cache_ok w ->
  load_texture images file_name x y width height mirrored flipped scale w =
    (inr t1, w1) ->
  load_texture images' file_name' x' y' width' height' mirrored' flipped'
    scale' w1 = (inr t2, w2) ->
  (t1 = t2 <->
   cache_name_of file_name x y width height scale flipped mirrored =
   cache_name_of file_name' x' y' width' height' scale' flipped' mirrored')
  /\ (file_name' = file_name /\ x' = x /\ y' = y /\ width' = width
      /\ height' = height /\ mirrored' = mirrored /\ flipped' = flipped
      /\ scale' <> scale ->
      t1 <> t2).
Proof.
  intros Hok H1 H2.
  pose proof (load_texture_caches _ _ _ _ _ _ _ _ _ _ _ _ H1) as Hk1.
  pose proof (load_texture_caches _ _ _ _ _ _ _ _ _ _ _ _ H2) as Hk2.
  pose proof (load_texture_keeps_cache_ok images file_name x y width height
                mirrored flipped scale w Hok) as Hok1.
  rewrite H1 in Hok1. cbn [snd] in Hok1.
  pose proof (load_texture_keeps_cache_ok images' file_name' x' y' width'
                height' mirrored' flipped' scale' w1 Hok1) as Hok2.
  pose proof (load_texture_grows images' file_name' x' y' width' height'
                mirrored' flipped' scale' w1) as (_ & Hkeep & _).
  rewrite H2 in Hok2, Hkeep. cbn [snd] in Hok2, Hkeep.
  assert (Hiff : t1 = t2 <->
    cache_name_of file_name x y width height scale flipped mirrored =
    cache_name_of file_name' x' y' width' height' scale' flipped' mirrored').
  { split.
    - intros <-. destruct Hok2 as [_ Hinj].
      exact (Hinj _ _ t1 (Hkeep _ _ Hk1) Hk2).
    - intros Hkey. rewrite Hkey in Hk1.
      rewrite (load_texture_hit images' file_name' x' y' width' height'
                 mirrored' flipped' scale' w1 t1 Hk1) in H2.
      now injection H2. }
  split; [exact Hiff|].
  intros (-> & -> & -> & -> & -> & -> & -> & Hscale) Ht.
  apply Hiff in Ht.
  now apply (cache_name_scale_distinct file_name x y width height scale
               scale' flipped mirrored).
Qed.

Lemma load_texture_same_object_iff_witness :
  (0%nat = 1%nat <->
   cache_name_of "a.png" 1 2 34 5 1 false false =
   cache_name_of "a.png" 1 2 34 5 2 false false)
  /\ 0%nat <> 1%nat.
Proof.
  destruct (load_texture_same_object_iff example_images example_images
              "a.png" "a.png" 1 2 34 5 1 2 34 5 false false false false 1 2
              (World 0 [] ∅)
              (World 1 [texture_dict 1 34 5 (VStr "a.png")]
                 (<[cache_name_of "a.png" 1 2 34 5 1 false false := 0%nat]> ∅))
              (World 2
                 [texture_dict 1 34 5 (VStr "a.png");
                  texture_dict 2 68 10 (VStr "a.png")]
                 (<[cache_name_of "a.png" 1 2 34 5 2 false false := 1%nat]>
                    (<[cache_name_of "a.png" 1 2 34 5 1 false false := 0%nat]>
                       ∅)))
              0%nat 1%nat) as [Hiff Hscale].
  - split; cbn [texture_cache]; intros ? ?; rewrite lookup_empty; discriminate.
  - rewrite (load_texture_miss example_images "a.png" 1 2 34 5 false false 1
               (World 0 [] ∅) (100, 100));
      [reflexivity|reflexivity|reflexivity|simpl; lia|lia].
  - rewrite (load_texture_miss example_images "a.png" 1 2 34 5 false false 2
               _ (100, 100));
      [reflexivity|vm_compute; reflexivity|reflexivity|simpl; lia|lia].
  - split; [exact Hiff|]. apply Hscale. repeat split; lia.
Defined.

Lemma load_texture_crop_raises (images : string -> option image)
    (file_name : string) (x y width height : Z) (mirrored flipped : bool)
    (scale : Z) (w : world) (sw sh : Z) (e : exn) :
  texture_cache w !!
    cache_name_of file_name x y width height scale flipped mirrored = None ->
  images file_name = Some (sw, sh) ->
  ~ (x = 0 /\ y = 0 /\ width = 0 /\ height = 0) ->
  check_crop x y width height sw sh w = (inl e, w) ->
  load_texture images file_name x y width height mirrored flipped scale w =
  (inl e, w).
Proof.
  intros Hmiss Himg Hnz Hcheck.
  unfold load_texture, eff_bind, eff_get. rewrite Hmiss.
  unfold PIL_open. rewrite Himg. unfold eff_ret at 1.
  replace (negb ((x =? 0) && (y =? 0) && (width =? 0) && (height =? 0)))
    with true.
  - now rewrite Hcheck.
  - symmetry. apply negb_true_iff.
    destruct (Z.eqb_spec x 0), (Z.eqb_spec y 0), (Z.eqb_spec width 0),
      (Z.eqb_spec height 0); try reflexivity.
    exfalso. apply Hnz. repeat split; assumption.
Qed.

(** X16: on a cache miss with a crop rectangle that is not all zero,
    [load_texture] raises [ValueError] when the rectangle starts beyond the
    right or bottom edge of the image or ends beyond it, the first failing
    check giving the message, formatted with the offending coordinate and
    the image size; a file that cannot be opened raises
    [FileNotFoundError]. In each case nothing is generated or cached. *)
Theorem load_texture_crop_errors (images : string -> option image)
    (file_name : string) (x y width height : Z) (mirrored flipped : bool)
    (scale : Z) (w : world) :
  texture_cache w !!
    cache_name_of file_name x y width height scale flipped mirrored = None ->
  (images file_name = None ->
   load_texture images file_name x y width height mirrored flipped scale w =
   (inl FileNotFoundError, w))
  /\ (forall sw sh,
        images file_name = Some (sw, sh) ->
        ~ (x = 0 /\ y = 0 /\ width = 0 /\ height = 0) ->
        (sw < x ->
         load_texture images file_name x y width height mirrored flipped
           scale w =
         (inl (ValueError
            ("Can't load texture starting at an x of " +:+ Py.str_int x
             +:+ " when the image is only " +:+ Py.str_int sw
             +:+ " across.")),
          w))
        /\ (x <= sw -> sh < y ->
            load_texture images file_name x y width height mirrored flipped
              scale w =
            (inl (ValueError
               ("Can't load texture starting at an y of " +:+ Py.str_int y
                +:+ " when the image is only " +:+ Py.str_int sh
                +:+ " high.")),
             w))
        /\ (x <= sw -> y <= sh -> sw < x + width ->
            load_texture images file_name x y width height mirrored flipped
              scale w =
            (inl (ValueError
               ("Can't load texture ending at an x of "
                +:+ Py.str_int (x + width)
                +:+ " when the image is only " +:+ Py.str_int sw
                +:+ " wide.")),
             w))
        /\ (x <= sw -> y <= sh -> x + width <= sw -> sh < y + height ->
            load_texture images file_name x y width height mirrored flipped
              scale w =
            (inl (ValueError
               ("Can't load texture ending at an y of "
                +:+ Py.str_int (y + height)
                +:+ " when the image is only " +:+ Py.str_int sh
                +:+ " high.")),
             w))).
Proof.
  intros Hmiss. split.
  - intros Himg. unfold load_texture, eff_bind, eff_get. rewrite Hmiss.
    unfold PIL_open. now rewrite Himg.
  - intros sw sh Himg Hnz.
    assert (Hgt : forall a b, b < a -> (a >? b) = true)
      by (intros; rewrite Z.gtb_ltb; now apply Z.ltb_lt).
    assert (Hle : forall a b, a <= b -> (a >? b) = false)
      by (intros; rewrite Z.gtb_ltb; now apply Z.ltb_ge).
    repeat split; intros;
      apply (load_texture_crop_raises images file_name x y width height
               mirrored flipped scale w sw sh); try assumption;
      unfold check_crop, eff_raise;
      rewrite ?(Hle x sw), ?(Hle y sh), ?(Hle (x + width) sw) by assumption.
    + now rewrite (Hgt x sw).
    + now rewrite (Hgt y sh).
    + now rewrite (Hgt (x + width) sw).
    + now rewrite (Hgt (y + height) sh).
Qed.

Lemma load_texture_crop_errors_witness :
  load_texture (fun _ => Some (101, 84)) "meteor.png" 200 1 50 50 false false 1
    (World 0 [] ∅) =
  (inl (ValueError
     "Can't load texture starting at an x of 200 when the image is only 101 across."),
   World 0 [] ∅)
  /\ load_texture (fun _ => Some (101, 84)) "meteor.png" 1 50 50 50 false
       false 1 (World 0 [] ∅) =
     (inl (ValueError
        "Can't load texture ending at an y of 100 when the image is only 84 high."),
      World 0 [] ∅).
Proof.
  split.
  - rewrite (proj1 (proj2 (load_texture_crop_errors (fun _ => Some (101, 84))
                    "meteor.png" 200 1 50 50 false false 1 (World 0 [] ∅)
                    (lookup_empty _)) 101 84 eq_refl ltac:(lia))
               ltac:(lia)).
    vm_compute. reflexivity.
  - rewrite (proj2 (proj2 (proj2 (proj2 (load_texture_crop_errors
                    (fun _ => Some (101, 84))
                    "meteor.png" 1 50 50 50 false false 1 (World 0 [] ∅)
                    (lookup_empty _)) 101 84 eq_refl ltac:(lia))))
               ltac:(lia) ltac:(lia) ltac:(lia) ltac:(lia)).
    vm_compute. reflexivity.
Defined.

(** X17: with the crop rectangle left at (0, 0, 0, 0), [load_texture] on a
    cache miss checks no bounds and loads the whole image: the new
    [Texture] reports the width and height of the image times [scale] and
    is cached; with another rectangle inside the image and a negative
    [scale] it raises [ValueError] after a texture name has been generated,
    which is then never cached. *)
Theorem load_texture_whole_image (images : string -> option image)
    (file_name : string) (mirrored flipped : bool) (scale : Z) (w : world)
    (sw sh : Z) :
  images file_name = Some (sw, sh) ->
  (texture_cache w !!
     cache_name_of file_name 0 0 0 0 scale flipped mirrored = None ->
   0 <= sw * scale -> 0 <= sh * scale ->
   load_texture images file_name 0 0 0 0 mirrored flipped scale w =
   (inr (length (heap w)),
    World (gl_textures w + 1)
      (heap w ++ [texture_dict (gl_textures w + 1) (sw * scale) (sh * scale)
                    (VStr file_name)])
      (<[cache_name_of file_name 0 0 0 0 scale flipped mirrored :=
           length (heap w)]> (texture_cache w))))
  /\ (forall x y width height,
        texture_cache w !!
          cache_name_of file_name x y width height scale flipped mirrored =
          None ->
        location_ok (sw, sh) (x, y, width, height) ->
        scale < 0 ->
        exists msg,
          load_texture images file_name x y width height mirrored flipped
            scale w =
          (inl (ValueError msg),
           World (gl_textures w + 1) (heap w) (texture_cache w))).
Proof.
  intros Himg. split.
  - intros Hmiss Hw Hh.
    unfold load_texture, eff_bind, eff_get. rewrite Hmiss.
    unfold PIL_open. rewrite Himg. unfold eff_ret at 1. cbn [Z.eqb andb negb].
    unfold eff_ret at 1, PIL_mirror, PIL_flip.
    destruct mirrored, flipped;
      unfold glGenTextures; rewrite Texture_cases;
      cbn [heap gl_textures texture_cache];
      (destruct (Z.ltb_spec (sh * scale) 0); [lia|]);
      (destruct (Z.ltb_spec (sw * scale) 0); [lia|]);
      reflexivity.
  - intros x y width height Hmiss (Hwd & Hx & Hy & Hxw & Hyh & Hht) Hscale.
    unfold load_texture, eff_bind, eff_get. rewrite Hmiss.
    unfold PIL_open. rewrite Himg. unfold eff_ret at 1.
    replace (width =? 0) with false by (symmetry; apply Z.eqb_neq; lia).
    rewrite !andb_false_r, andb_false_l. cbn [negb].
    rewrite check_crop_cases.
    replace ((x >? sw) || (y >? sh) || (x + width >? sw) || (y + height >? sh))
      with false
      by (symmetry; rewrite !orb_false_iff, !Z.gtb_ltb, !Z.ltb_ge; lia).
    unfold eff_ret at 1, PIL_crop, PIL_mirror, PIL_flip.
    replace (Z.max 0 (x + width - x)) with width by lia.
    replace (Z.max 0 (y + height - y)) with height by lia.
    destruct mirrored, flipped;
      unfold glGenTextures; rewrite Texture_cases;
      cbn [heap gl_textures texture_cache];
      (destruct (Z.ltb_spec (height * scale) 0); [eexists; reflexivity|]);
      (destruct (Z.ltb_spec (width * scale) 0); [eexists; reflexivity|nia]).
Qed.

Lemma load_texture_whole_image_witness :
  load_texture example_images "a.png" 0 0 0 0 false false 2 (World 0 [] ∅) =
  (inr 0%nat,
   World 1 [texture_dict 1 (100 * 2) (100 * 2) (VStr "a.png")]
     (<[cache_name_of "a.png" 0 0 0 0 2 false false := 0%nat]> ∅))
  /\ exists msg,
       load_texture example_images "a.png" 1 2 34 5 false false (-1)
         (World 0 [] ∅) =
       (inl (ValueError msg), World 1 [] ∅).
Proof.
  destruct (load_texture_whole_image example_images "a.png" false false 2
              (World 0 [] ∅) 100 100 eq_refl) as [Hwhole _].
  destruct (load_texture_whole_image example_images "a.png" false false (-1)
              (World 0 [] ∅) 100 100 eq_refl) as [_ Hneg].
  split.
  - apply Hwhole; [apply lookup_empty|lia|lia].
  - apply (Hneg 1 2 34 5); [apply lookup_empty|simpl; lia|lia].
Defined.

End CacheUse.

(** ** [load_textures] creates, never reuses *)

Section LoadTexturesFresh.

Local Open Scope Z_scope.

(** One iteration of the loop of [load_textures] returns only on a crop
    rectangle that is accepted. *)
Lemma load_textures_step_valid (source_image : image) (mirrored flipped : bool)
    (scale : Z) (acc : list nat) (loc : Z * Z * Z * Z) (w w' : world)
    (ts : list nat) :
  load_textures_step source_image mirrored flipped scale acc loc w =
    (inr ts, w') ->
  location_ok source_image loc.
Proof.
  destruct source_image as [sw sh]. destruct loc as [[[x y] width] height].
  unfold load_textures_step, eff_bind. intros Hr.
  destruct (Z.leb_spec width 0); [discriminate|].
  unfold eff_ret at 1 in Hr. rewrite check_crop_cases in Hr.
  destruct ((x >? sw) || (y >? sh) || (x + width >? sw) || (y + height >? sh))
    eqn:Hbad.
  { destruct (check_crop_raises x y width height sw sh w Hbad) as [msg Hc].
    rewrite Hc in Hr. discriminate. }
  rewrite !orb_false_iff, !Z.gtb_ltb, !Z.ltb_ge in Hbad.
  unfold PIL_mirror, PIL_flip, PIL_crop in Hr.
  destruct mirrored, flipped;
    unfold glGenTextures in Hr; rewrite Texture_cases in Hr;
    (destruct (Z.ltb_spec height 0); [discriminate|]);
    cbn; lia.
Qed.

Lemma load_textures_loop_valid (source_image : image) (mirrored flipped : bool)
    (scale : Z) (locs : list (Z * Z * Z * Z)) (acc : list nat) (w w' : world)
    (ts : list nat) :
  for_each_eff (load_textures_step source_image mirrored flipped scale)
    locs acc w = (inr ts, w') ->
  Forall (location_ok source_image) locs.
Proof.
  revert acc w. induction locs as [|loc locs IH]; intros acc w; cbn [for_each_eff].
  - constructor.
  - unfold eff_bind.
    destruct (load_textures_step source_image mirrored flipped scale acc loc w)
      as [[e|acc1] w1] eqn:Hstep; [discriminate|].
    intros Hrest. constructor.
    + exact (load_textures_step_valid _ _ _ _ _ _ _ _ _ Hstep).
    + exact (IH _ _ Hrest).
Qed.

Lemma load_textures_ok (images : string -> option image)
    (file_name : string) (locs : list (Z * Z * Z * Z))
    (mirrored flipped : bool) (scale : Z) (w : world) (source_image : image) :
  images file_name = Some source_image ->
  Forall (location_ok source_image) locs ->
  exists ts w',
    load_textures images file_name locs mirrored flipped scale w = (inr ts, w').
Proof.
  intros Himg Hlocs. unfold load_textures, eff_bind, PIL_open.
  rewrite Himg. unfold eff_ret at 1. now apply load_textures_loop_ok.
Qed.

(** X18: [load_textures] returns exactly when the file can be opened and
    every crop rectangle has a positive width, a height that is not
    negative, and lies inside the image. *)
Theorem load_textures_returns_iff (images : string -> option image)
    (file_name : string) (image_location_list : list (Z * Z * Z * Z))
    (mirrored flipped : bool) (scale : Z) (w : world) :
  (exists ts w',
     load_textures images file_name image_location_list mirrored flipped
       scale w = (inr ts, w'))
  <->
  (exists source_image,
     images file_name = Some source_image
     /\ Forall (location_ok source_image) image_location_list).
Proof.
  unfold load_textures, eff_bind, PIL_open. split.
  - intros (ts & w' & Hr).
    destruct (images file_name) as [source_image|]; [|discriminate].
    exists source_image. split; [reflexivity|].
    unfold eff_ret at 1 in Hr.
    exact (load_textures_loop_valid _ _ _ _ _ _ _ _ _ Hr).
  - intros (source_image & Himg & Hlocs). rewrite Himg. unfold eff_ret at 1.
    now apply load_textures_loop_ok.
Qed.

(** X19: the references [load_textures] returns are the next free slots of
    the heap, one new [Texture] object per crop rectangle, in order and all
    different; the cache is neither read nor written, so a second call with
    the same arguments returns objects different from those of the
    first. *)
Theorem load_textures_fresh (images : string -> option image)
    (file_name : string) (image_location_list : list (Z * Z * Z * Z))
    (mirrored flipped : bool) (scale : Z) (w w' : world) (ts : list nat) :
  load_textures images file_name image_location_list mirrored flipped scale w =
    (inr ts, w') ->
  ts = seq (length (heap w)) (length image_location_list)
  /\ length (heap w') =
     (length (heap w) + length image_location_list)%nat
  /\ texture_cache w' = texture_cache w
  /\ NoDup ts
  /\ (forall t, In t ts -> heap w !! t = None)
  /\ (forall images2 ts2 w2,
        load_textures images2 file_name image_location_list mirrored flipped
          scale w' = (inr ts2, w2) ->
        forall t, In t ts -> ~ In t ts2).
Proof.
  assert (Hshape : forall imgs v v' us,
    load_textures imgs file_name image_location_list mirrored flipped scale v =
      (inr us, v') ->
    us = seq (length (heap v)) (length image_location_list)
    /\ length (heap v') = (length (heap v) + length image_location_list)%nat).
  { intros imgs v v' us. unfold load_textures, eff_bind, PIL_open.
    destruct (imgs file_name) as [source_image|]; [|discriminate].
    unfold eff_ret at 1. intros Hloop.
    apply load_textures_loop_inv in Hloop as (objs & -> & Hheap & Hsizes).
    split; [reflexivity|].
    apply (f_equal (@length _)) in Hsizes. rewrite !length_map in Hsizes.
    now rewrite Hheap, length_app, Hsizes. }
  intros Hr. destruct (Hshape _ _ _ _ Hr) as [-> Hlen].
  split; [reflexivity|]. split; [exact Hlen|]. split.
  { pose proof (load_textures_grows images file_name image_location_list
                  mirrored flipped scale w) as (Hc & _ & _).
    now rewrite Hr in Hc. }
  split; [apply NoDup_seq|]. split.
  - intros t Ht. apply in_seq in Ht. apply lookup_ge_None. lia.
  - intros images2 ts2 w2 Hr2 t Ht Ht2.
    destruct (Hshape _ _ _ _ Hr2) as [-> _].
    apply in_seq in Ht, Ht2. lia.
Qed.

Lemma load_textures_fresh_witness :
  exists ts w',
    load_textures example_images "a.png" [(0, 0, 10, 20); (0, 0, 10, 20)]
      false false 1 (World 0 [] ∅) = (inr ts, w')
    /\ ts = [0%nat; 1%nat]
    /\ texture_cache w' = ∅.
Proof.
  destruct (load_textures_ok example_images "a.png"
              [(0, 0, 10, 20); (0, 0, 10, 20)] false false 1
              (World 0 [] ∅) (100, 100) eq_refl)
    as (ts & w' & Hload).
  - repeat constructor; simpl; lia.
  - exists ts, w'. split; [exact Hload|].
    destruct (load_textures_fresh example_images "a.png"
                [(0, 0, 10, 20); (0, 0, 10, 20)] false false 1
                (World 0 [] ∅) w' ts Hload) as (Hts & _ & Hcache & _).
    split; [exact Hts|exact Hcache].
Defined.

End LoadTexturesFresh.

(** ** Rounded points, full arcs and integer boxes *)

Section MoreGeometry.

Local Open Scope R_scope.

(** X20: the result of [rotate_point] is a fixed point of the rotation by
    0 about any centre: a rotated point is not changed by being rounded
    again, so the rotation loop run with angle 0 leaves a list of rotated
    points as it is. *)
Theorem rotate_point_zero_idempotent (x y cx cy angle cx' cy' : R)
    (pts : list Point) :
  (let p := rotate_point x y cx cy angle in
   rotate_point (fst p) (snd p) cx' cy' 0 = p)
  /\ rotate_all 0 (rotate_all angle pts) = rotate_all angle pts.
Proof.
  assert (Hfix : forall a b c d e c' d',
            let p := rotate_point a b c d e in
            rotate_point (fst p) (snd p) c' d' 0 = p).
  { intros a b c d e c' d'. cbv zeta. rewrite rotate_point_zero.
    unfold rotate_point. cbn [fst snd].
    match goal with
    | |- (Py.round (Py.round ?u 2) 2, Py.round (Py.round ?v 2) 2) = _ =>
      destruct (round2_spec u) as (ku & -> & _);
      destruct (round2_spec v) as (kv & -> & _)
    end.
    now rewrite !round2_centesimal. }
  split; [apply Hfix|].
  rewrite !rotate_all_map, map_map. apply map_ext. intros [a b].
  cbn [fst snd]. apply (Hfix a b 0 0 angle 0 0).
Qed.

Lemma range_snoc (a b : Z) :
  (a <= b)%Z -> Py.range a (b + 1) = Py.range a b ++ [b].
Proof.
  intros Hab. unfold Py.range.
  replace (Z.to_nat (b + 1 - a)) with (S (Z.to_nat (b - a))) by lia.
  rewrite seq_S, map_app. cbn [map]. do 2 f_equal. lia.
Qed.

(** For a segment count that is a double, the bounds of the full turn are
    exact: 0 / 360 * N is 0 and 360 / 360 * N is N. *)
Lemma arc_segment_full (num_segments : Z) :
  (0 < num_segments < 2 ^ 53)%Z ->
  arc_segment 0 num_segments = inr 0%Z
  /\ arc_segment 360 num_segments = inr num_segments.
Proof.
  intros HN.
  destruct (of_int_small num_segments HN) as (n & m & e & Hn & Hsf & Hval).
  unfold arc_segment. rewrite Hn. split.
  - change (0 / 360)%float with 0%float.
    unfold Double.to_int. rewrite mul_spec, Hsf.
    change (Prim2SF 0) with (S754_zero false). reflexivity.
  - change (360 / 360)%float with 1%float. rewrite double_mul_one_l.
    unfold Double.to_int. rewrite Hsf. cbn [cond_Zopp]. now rewrite Hval.
Qed.

(** X21: with a positive segment count below 2^53 (one that is a double),
    the untranslated list of a filled arc from 0 to 360 degrees is the
    pivot (0, 0), then the vertices of the ellipse of the same radii and
    segment count, then one more vertex, for the segment [num_segments],
    which closes the fan. *)
Theorem full_arc_is_closed_ellipse (width height : R) (num_segments : Z) :
  (0 < num_segments < 2 ^ 53)%Z ->
  exists ellipse,
    ellipse_unrotated width height num_segments = inr ellipse
    /\ length ellipse = Z.to_nat num_segments
    /\ arc_filled_unrotated width height 0 360 num_segments =
       inr ((0, 0) :: ellipse ++
            [(width * cos (2 * 3.1415926 * IZR num_segments / IZR num_segments),
              height * sin (2 * 3.1415926 * IZR num_segments
                            / IZR num_segments))]).
Proof.
  intros HN. destruct (arc_segment_full num_segments HN) as [Hs He].
  eexists. split; [apply ellipse_unrotated_map; lia|]. split.
  - rewrite length_map, range_length. f_equal. lia.
  - rewrite (arc_filled_unrotated_map width height 0 360 num_segments 0
               num_segments) by (lia || assumption).
    rewrite range_snoc by lia.
    now rewrite map_app.
Qed.

Lemma full_arc_is_closed_ellipse_witness :
  exists ellipse,
    ellipse_unrotated 15 36 128 = inr ellipse
    /\ length ellipse = 128%nat.
Proof.
  destruct (full_arc_is_closed_ellipse 15 36 128 ltac:(lia))
    as (ellipse & Hellipse & Hlen & _).
  exists ellipse. split; [exact Hellipse|exact Hlen].
Defined.

(** X22: for integer edges with [left <= right] and [bottom <= top],
    [draw_lrtb_rectangle_filled] submits the corners
    (left, bottom), (right, bottom), (left, top), (right, top) moved left by
    half of [(right - left) mod 2] and down by half of
    [(top - bottom) mod 2]: the box asked for when both sides are even, a box
    half a unit off along each odd side. *)
Theorem draw_lrtb_rectangle_filled_Z (left right top bottom : Z)
    (color : Color) (g : gl_context) :
  (left <= right)%Z -> (bottom <= top)%Z ->
  let dx := IZR ((right - left) mod 2) / 2 in
  let dy := IZR ((top - bottom) mod 2) / 2 in
  draw_lrtb_rectangle_filled (IZR left) (IZR right) (IZR top) (IZR bottom)
    color g =
  _generic_draw_line_strip
    [(IZR left - dx, IZR bottom - dy); (IZR right - dx, IZR bottom - dy);
     (IZR left - dx, IZR top - dy); (IZR right - dx, IZR top - dy)]
    color 1 GL_TRIANGLE_STRIP g.
Proof.
  intros Hlr Hbt dx dy.
  assert (Hhalf : forall lo hi : Z,
    Py.floordiv (- (IZR hi - IZR lo)) 2 + (IZR lo + IZR hi) / 2 =
      IZR lo - IZR ((hi - lo) mod 2) / 2
    /\ Py.floordiv (IZR hi - IZR lo) 2 + (IZR lo + IZR hi) / 2 =
       IZR hi - IZR ((hi - lo) mod 2) / 2).
  { intros lo hi.
    rewrite <- minus_IZR, <- opp_IZR, !floordiv_IZR.
    pose proof (Z.div_mod (hi - lo) 2 ltac:(lia)) as Hpos.
    pose proof (Z.div_mod (- (hi - lo)) 2 ltac:(lia)) as Hneg.
    pose proof (Z.mod_pos_bound (hi - lo) 2 ltac:(lia)) as Hm.
    pose proof (Z.mod_pos_bound (- (hi - lo)) 2 ltac:(lia)) as Hm'.
    assert (Hq : (- (hi - lo) / 2 = - ((hi - lo) / 2) - (hi - lo) mod 2)%Z)
      by lia.
    rewrite Hq. apply (f_equal IZR) in Hpos.
    rewrite plus_IZR, mult_IZR, minus_IZR in Hpos.
    rewrite minus_IZR, opp_IZR. split; lra. }
  unfold draw_lrtb_rectangle_filled.
  destruct (Rgt_dec (IZR left) (IZR right)) as [Hbad|_];
    [apply IZR_le in Hlr; lra|].
  destruct (Rgt_dec (IZR bottom) (IZR top)) as [Hbad|_];
    [apply IZR_le in Hbt; lra|].
  unfold draw_rectangle_filled. rewrite rectangle_tilted_zero.
  unfold rectangle_corners.
  replace ((IZR top + IZR bottom) / 2) with ((IZR bottom + IZR top) / 2)
    by lra.
  destruct (Hhalf left right) as [-> ->].
  destruct (Hhalf bottom top) as [-> ->].
  reflexivity.
Qed.

Lemma draw_lrtb_rectangle_filled_Z_witness :
  draw_lrtb_rectangle_filled (IZR 1) (IZR 2) (IZR 3) (IZR 1) [0; 0; 0]%Z [] =
  _generic_draw_line_strip
    [(IZR 1 - IZR ((2 - 1) mod 2) / 2, IZR 1 - IZR ((3 - 1) mod 2) / 2);
     (IZR 2 - IZR ((2 - 1) mod 2) / 2, IZR 1 - IZR ((3 - 1) mod 2) / 2);
     (IZR 1 - IZR ((2 - 1) mod 2) / 2, IZR 3 - IZR ((3 - 1) mod 2) / 2);
     (IZR 2 - IZR ((2 - 1) mod 2) / 2, IZR 3 - IZR ((3 - 1) mod 2) / 2)]
    [0; 0; 0]%Z 1 GL_TRIANGLE_STRIP [].
Proof.
  apply (draw_lrtb_rectangle_filled_Z 1 2 3 1 [0; 0; 0]%Z []); lia.
Defined.

End MoreGeometry.
